(** * Smart Environment Monitor: the ingestion pipeline of [dashboard.py]

    A shallow embedding of the background ingestion pipeline of the
    dashboard: the tolerant extraction of sensor values, the bounded history
    window, the inference step around the pre-trained classifier, the alert
    evaluator, the per-tick staleness rule, the command publisher and the
    reconnect loop of the MQTT worker.

    Conventions.
    - A decoded MQTT payload is whatever [json.loads] returns: the type
      [json] below.  A Python [dict] is a [gmap string json].
    - A Python exception is a value of [exn]; code that may raise lives in
      [result], and code that also mutates [st.session_state] or publishes
      lives in the state-and-exception monad [M].
    - Python [int] is [Z]; a finite Python [float] is read as the rational
      it denotes ([Q]), with the two infinities and NaN kept apart.
      Arithmetic on floats rounds to the nearest double ([round_double]).
    - Terminal output ([print]) is not modelled; what the logger functions
      can raise is. *)

From Stdlib Require Import ZArith QArith Qround Lia List Bool.
From stdpp Require Import gmap strings list.
Import ListNotations.

Set Warnings "-register-all".
Open Scope Z_scope.

(** ** Python values and exceptions *)

(** The exception classes the modelled code can meet.  All of them derive
    from [Exception], so a bare [except Exception] catches every one. *)
Inductive exn : Type :=
| TypeError
| AttributeError
| ValueError
| OverflowError
| IndexError
| OSError
| OtherError (what : string).

Inductive result (A : Type) : Type :=
| Ok (a : A)
| Raise (e : exn).
Arguments Ok {A} a.
Arguments Raise {A} e.

Definition rbind {A B : Type} (r : result A) (k : A -> result B) : result B :=
  match r with
  | Ok a => k a
  | Raise e => Raise e
  end.

Declare Scope result_scope.
Delimit Scope result_scope with res.
Notation "x <- r ;; k" := (rbind r (fun x => k))
  (at level 100, r at next level, right associativity) : result_scope.

(** A Python [float]: a finite value, an infinity, or NaN ([json.loads]
    accepts the literals [Infinity], [-Infinity] and [NaN]). *)
Inductive pyfloat : Type :=
| FFin (q : Q)
| FInf (negative : bool)
| FNaN.

(** *** Binary64 rounding

    A Python [float] is an IEEE 754 double: 53 significant bits, the
    smallest positive value [2 ^ -1074].  [round_double q] is the double
    nearest to the real [q], ties going to the even significand; from
    [2 ^ 1024 - 2 ^ 970] on, the result is an infinity. *)

(** [floor (log2 q)] for a positive [q]. *)
Definition floor_log2 (q : Q) : Z :=
  let k := Z.log2 (Qnum q) - Z.log2 (Z.pos (Qden q)) in
  if Qle_bool (2 ^ k) q then k else k - 1.

(** The integer nearest to [q], ties to even. *)
Definition round_half_even (q : Q) : Z :=
  let a := Qfloor q in
  match (q - inject_Z a ?= 1 # 2)%Q with
  | Lt => a
  | Gt => a + 1
  | Eq => if Z.even a then a else a + 1
  end.

(** The spacing of the doubles around a positive [q] is [2 ^ e]. *)
Definition round_positive (q : Q) : pyfloat :=
  let e := Z.max (floor_log2 q - 52) (-1074) in
  let v := (inject_Z (round_half_even (q / 2 ^ e)) * 2 ^ e)%Q in
  if Qle_bool (2 ^ 1024) v then FInf false else FFin (Qred v).

Definition round_double (q : Q) : pyfloat :=
  match (q ?= 0)%Q with
  | Eq => FFin 0
  | Gt => round_positive q
  | Lt => match round_positive (- q) with
          | FFin v => FFin (- v)
          | FInf _ => FInf true
          | FNaN => FNaN
          end
  end.

(** [x * c] for a float [x] and an integer literal [c] that is itself a
    double: the exact product is rounded once. *)
Definition float_mul (x : pyfloat) (c : Z) : pyfloat :=
  match x with
  | FFin q => round_double (q * inject_Z c)
  | FInf negative => if c =? 0 then FNaN else FInf (xorb negative (c <? 0))
  | FNaN => FNaN
  end.

(** [bool(x)] for a float: every value but zero. *)
Definition float_truthy (x : pyfloat) : bool :=
  match x with
  | FFin q => negb (Qeq_bool q 0)
  | _ => true
  end.

(** [int(x)] for a float: truncation toward zero; [int] of an infinity
    raises [OverflowError], [int] of NaN raises [ValueError]. *)
Definition float_int (x : pyfloat) : result Z :=
  match x with
  | FFin q => Ok (Z.quot (Qnum q) (Z.pos (Qden q)))
  | FInf _ => Raise OverflowError
  | FNaN => Raise ValueError
  end.

(** What [json.loads] can return. *)
Inductive json : Type :=
| JNull
| JBool (b : bool)
| JInt (z : Z)
| JFloat (f : pyfloat)
| JStr (s : string)
| JList (l : list json)
| JDict (m : gmap string json).

(** The numeric reading of a value: [bool] is a subclass of [int]. *)
Definition as_number (v : json) : option pyfloat :=
  match v with
  | JBool b => Some (FFin (inject_Z (Z.b2z b)))
  | JInt z => Some (FFin (inject_Z z))
  | JFloat f => Some f
  | _ => None
  end.

(** [v > c] for an integer literal [c].  Python compares an [int] with a
    [float] exactly; every comparison with NaN is false; comparing [None],
    a [str], a [list] or a [dict] with an [int] raises [TypeError]. *)
Definition py_gt (v : json) (c : Z) : result bool :=
  match as_number v with
  | Some (FFin q) => Ok (match (q ?= inject_Z c)%Q with Gt => true | _ => false end)
  | Some (FInf negative) => Ok (negb negative)
  | Some FNaN => Ok false
  | None => Raise TypeError
  end.

(** [v < c]. *)
Definition py_lt (v : json) (c : Z) : result bool :=
  match as_number v with
  | Some (FFin q) => Ok (match (q ?= inject_Z c)%Q with Lt => true | _ => false end)
  | Some (FInf negative) => Ok negative
  | Some FNaN => Ok false
  | None => Raise TypeError
  end.

(** [v <= c]. *)
Definition py_le (v : json) (c : Z) : result bool :=
  match as_number v with
  | Some (FFin q) => Ok (match (q ?= inject_Z c)%Q with Gt => false | _ => true end)
  | Some (FInf negative) => Ok negative
  | Some FNaN => Ok false
  | None => Raise TypeError
  end.

(** Python truthiness, as used by [weather_aqi and ...]. *)
Definition truthy (v : json) : bool :=
  match v with
  | JNull => false
  | JBool b => b
  | JInt z => negb (z =? 0)
  | JFloat (FFin q) => negb (Qeq_bool q 0)
  | JFloat _ => true
  | JStr s => negb (String.eqb s "")
  | JList l => match l with [] => false | _ => true end
  | JDict m => negb (bool_decide (size m = 0%nat))
  end.

(** [a is None] *)
Definition is_none (v : json) : bool :=
  match v with JNull => true | _ => false end.

(** Converting an [int] to a [float] raises [OverflowError] once the
    magnitude rounds past the largest double. *)
Definition float_overflows (z : Z) : bool :=
  2 ^ 1024 - 2 ^ 970 <=? Z.abs z.

(** Whether formatting [v] with a fixed-point specification such as
    [:.1f], [:.0f] or [:>6.1f] succeeds; the rendered text is not modelled. *)
Definition format_fixed (v : json) : result unit :=
  match v with
  | JBool _ => Ok tt
  | JInt z => if float_overflows z then Raise OverflowError else Ok tt
  | JFloat _ => Ok tt
  | JStr _ => Raise ValueError
  | JNull | JList _ | JDict _ => Raise TypeError
  end.

(** Whether formatting [v] with the alignment-only specification [:>6]
    succeeds: [None], a [list] and a [dict] reject a non-empty format
    specification. *)
Definition format_aligned (v : json) : result unit :=
  match v with
  | JNull | JList _ | JDict _ => Raise TypeError
  | _ => Ok tt
  end.

(** [data.get(key, default)]: only a [dict] has the method. *)
Definition py_get (data : json) (key : string) (default : json) : result json :=
  match data with
  | JDict m => Ok (match m !! key with Some v => v | None => default end)
  | _ => Raise AttributeError
  end.

(** [key in data], for [data] a [dict]. *)
Definition py_in (key : string) (m : gmap string json) : bool :=
  match m !! key with Some _ => true | None => false end.

(** ** The terminal logger ([TerminalLogger]) *)

Module TerminalLogger.

Inductive color : Type := CYAN | GREEN | YELLOW | RED.

Definition _get_temp_category (temp : json) : result (string * color) :=
  (b1 <- py_lt temp 20 ;;
   if b1 then Ok ("Dingin", CYAN) else
   b2 <- py_lt temp 28 ;;
   if b2 then Ok ("Normal", GREEN) else
   b3 <- py_lt temp 35 ;;
   if b3 then Ok ("Panas", YELLOW) else
   Ok ("Sangat Panas", RED))%res.

Definition _get_humid_category (humid : json) : result (string * color) :=
  (b1 <- py_lt humid 40 ;;
   if b1 then Ok ("Kering", YELLOW) else
   b2 <- py_lt humid 70 ;;
   if b2 then Ok ("Normal", GREEN) else
   Ok ("Lembab", CYAN))%res.

Definition _get_aqi_category (aqi : json) : result (string * color) :=
  (b1 <- py_le aqi 50 ;;
   if b1 then Ok ("Baik", GREEN) else
   b2 <- py_le aqi 100 ;;
   if b2 then Ok ("Sedang", YELLOW) else
   b3 <- py_le aqi 150 ;;
   if b3 then Ok ("Tidak Sehat", YELLOW) else
   b4 <- py_le aqi 200 ;;
   if b4 then Ok ("Buruk", RED) else
   Ok ("Berbahaya", RED))%res.

Definition _get_rssi_category (rssi : json) : result (string * color) :=
  (b1 <- py_gt rssi (-50) ;;
   if b1 then Ok ("Excellent", GREEN) else
   b2 <- py_gt rssi (-60) ;;
   if b2 then Ok ("Good", GREEN) else
   b3 <- py_gt rssi (-70) ;;
   if b3 then Ok ("Fair", YELLOW) else
   Ok ("Weak", RED))%res.

(** [logger.sensor_data(suhu, lembab, aqi, rssi=rssi, adc_raw=adc_raw)]:
    the three categories, then the formatted lines in source order. *)
Definition sensor_data (suhu lembab aqi rssi adc_raw : json) : result unit :=
  (_ <- _get_temp_category suhu ;;
   _ <- _get_humid_category lembab ;;
   _ <- _get_aqi_category aqi ;;
   _ <- format_fixed suhu ;;
   _ <- format_fixed lembab ;;
   _ <- format_aligned aqi ;;
   _ <- (if is_none adc_raw then Ok tt else format_aligned adc_raw) ;;
   _ <- (if is_none rssi then Ok tt
         else (_ <- _get_rssi_category rssi ;; format_aligned rssi)) ;;
   Ok tt)%res.

(** [logger.ml_prediction(status, confidence, suhu=, lembab=, aqi=,
    sent_ok=)]: [status] is a [str] and [confidence] a [float] or
    [None], so only the input line can raise. *)
Definition ml_prediction (suhu lembab aqi : json) : result unit :=
  if negb (is_none suhu) && negb (is_none lembab) && negb (is_none aqi)
  then (_ <- format_fixed suhu ;; _ <- format_fixed lembab ;; Ok tt)%res
  else Ok tt.

(** [logger.command_sent(cmd, **kwargs)], lines 252-256, called with the
    keyword arguments named [keywords]: its first parameter is called
    [cmd], so a keyword argument of that name gives the parameter two
    values and the call raises [TypeError]; formatting the details cannot
    raise. *)
Definition command_sent (cmd : string) (keywords : list string) : result unit :=
  if existsb (String.eqb "cmd") keywords then Raise TypeError else Ok tt.

End TerminalLogger.

(** ** Configuration constants *)

Definition TOPIC_PREDICTION : string := "projek/asma/prediction".
Definition MQTT_BROKER : string := "broker.emqx.io".
Definition MQTT_PORT : Z := 1883.
Definition TOPIC_DATA : string := "projek/asma/data_sensor".
Definition TOPIC_COMMAND : string := "projek/asma/command".
Definition TOPIC_RESPONSE : string := "projek/asma/response".

(** ** Time

    An instant is a number of microseconds counted from a local (WIB)
    midnight.  The worker stamps a message with
    [datetime.now(wib).strftime("%H:%M:%S")]: the time of day, cut to the
    second, without the date.  [strptime] with the same format reads the
    stamp back, so a stamp is kept as the number of seconds since midnight
    it denotes. *)

Definition US_PER_SECOND : Z := 1000000.
Definition SECONDS_PER_DAY : Z := 86400.
Definition US_PER_DAY : Z := SECONDS_PER_DAY * US_PER_SECOND.

(** Time of day of an instant, in microseconds. *)
Definition time_of_day (t : Z) : Z := t mod US_PER_DAY.

(** [datetime.now(wib).strftime("%H:%M:%S")] taken at instant [t]. *)
Definition strftime_HMS (t : Z) : Z := time_of_day t / US_PER_SECOND.

(** [st.session_state.last_update]: the string ["Never"] or a stamp. *)
Inductive last_update_t : Type :=
| Never
| At (hms : Z).

(** ** Session state *)

(** [collections.deque(maxlen=n)], oldest entry first: [append] on a full
    deque discards the entry at the opposite end. *)
Definition deque_append {A : Type} (maxlen : nat) (x : A) (d : list A) : list A :=
  if (length d <? maxlen)%nat then d ++ [x] else tail d ++ [x].

Record history : Type := {
  h_time : list Z;
  h_suhu : list json;
  h_lembab : list json;
  h_aqi : list json
}.

(** One alert is a pair of a severity string and a message.  The message is
    an f-string; it is kept as the template it comes from together with the
    value the template formats. *)
Inductive message : Type :=
| AQI_BERBAHAYA (local_aqi : json)
| AQI_Tidak_Sehat (local_aqi : json)
| AccuWeather_AQI (weather_aqi : json)
| Suhu_tinggi (suhu : json)
| Kelembaban_tinggi (lembab : json)
| Kelembaban_rendah (lembab : json).

Definition alert : Type := string * message.

Record prediction : Type := {
  status : string;
  confidence : option pyfloat
}.

(** A queue item as the worker builds it: [{"ts": ..., "payload": ...}]. *)
Record item : Type := {
  ts : Z;
  payload : json
}.

(** The part of [st.session_state] the pipeline reads and writes. *)
Record session : Type := {
  mqtt_connected : bool;
  sensor_data : json;
  data_history : history;
  last_update : last_update_t;
  alerts : list alert;
  ml_prediction : prediction;
  last_device_response : option item
}.

Definition initial_sensor_data : json :=
  JDict (list_to_map [
    ("suhu", JInt 0); ("lembab", JInt 0); ("adc_raw", JInt 0);
    ("adc_percent", JInt 0); ("local_aqi", JInt 0);
    ("aqi_category", JStr "N/A"); ("baseline_adc", JInt 500);
    ("quality", JStr "N/A"); ("level", JStr "safe"); ("ip", JStr "N/A");
    ("rssi", JInt 0); ("uptime", JInt 0); ("weather_temp", JNull);
    ("weather_aqi", JNull); ("weather_aqi_cat", JNull)]).

Definition initial_session : session := {|
  mqtt_connected := false;
  sensor_data := initial_sensor_data;
  data_history := {| h_time := []; h_suhu := []; h_lembab := []; h_aqi := [] |};
  last_update := Never;
  alerts := [];
  ml_prediction := {| status := "N/A"; confidence := None |};
  last_device_response := None
|}.

Definition set_mqtt_connected (b : bool) (s : session) : session :=
  {| mqtt_connected := b; sensor_data := sensor_data s;
     data_history := data_history s; last_update := last_update s;
     alerts := alerts s; ml_prediction := ml_prediction s;
     last_device_response := last_device_response s |}.

Definition set_sensor_data (d : json) (s : session) : session :=
  {| mqtt_connected := mqtt_connected s; sensor_data := d;
     data_history := data_history s; last_update := last_update s;
     alerts := alerts s; ml_prediction := ml_prediction s;
     last_device_response := last_device_response s |}.

Definition set_data_history (h : history) (s : session) : session :=
  {| mqtt_connected := mqtt_connected s; sensor_data := sensor_data s;
     data_history := h; last_update := last_update s;
     alerts := alerts s; ml_prediction := ml_prediction s;
     last_device_response := last_device_response s |}.

Definition set_last_update (u : last_update_t) (s : session) : session :=
  {| mqtt_connected := mqtt_connected s; sensor_data := sensor_data s;
     data_history := data_history s; last_update := u;
     alerts := alerts s; ml_prediction := ml_prediction s;
     last_device_response := last_device_response s |}.

Definition set_alerts (a : list alert) (s : session) : session :=
  {| mqtt_connected := mqtt_connected s; sensor_data := sensor_data s;
     data_history := data_history s; last_update := last_update s;
     alerts := a; ml_prediction := ml_prediction s;
     last_device_response := last_device_response s |}.

Definition set_ml_prediction (p : prediction) (s : session) : session :=
  {| mqtt_connected := mqtt_connected s; sensor_data := sensor_data s;
     data_history := data_history s; last_update := last_update s;
     alerts := alerts s; ml_prediction := p;
     last_device_response := last_device_response s |}.

Definition set_last_device_response (r : option item) (s : session) : session :=
  {| mqtt_connected := mqtt_connected s; sensor_data := sensor_data s;
     data_history := data_history s; last_update := last_update s;
     alerts := alerts s; ml_prediction := ml_prediction s;
     last_device_response := r |}.

(** ** The state-and-exception monad

    The machine a tick runs on: the session state, the messages handed to
    the publisher connection so far (oldest first), and the local variable
    [data_received] of [process_incoming_data].  A mutation made before an
    exception is raised stays made, as in Python. *)

Record mqtt_message : Type := {
  topic : string;
  body : json
}.

Record machine : Type := {
  ss : session;
  outbox : list mqtt_message;
  data_received : bool
}.

Definition M (A : Type) : Type := machine -> machine * result A.

Definition ret {A : Type} (a : A) : M A := fun m => (m, Ok a).
Definition raise {A : Type} (e : exn) : M A := fun m => (m, Raise e).
Definition bind {A B : Type} (c : M A) (k : A -> M B) : M B :=
  fun m => match c m with
           | (m', Ok a) => k a m'
           | (m', Raise e) => (m', Raise e)
           end.
(** [try: body except Exception as e: handler] *)
Definition try_except {A : Type} (body : M A) (handler : exn -> M A) : M A :=
  fun m => match body m with
           | (m', Ok a) => (m', Ok a)
           | (m', Raise e) => handler e m'
           end.
Definition lift {A : Type} (r : result A) : M A := fun m => (m, r).
Definition modify_session (f : session -> session) : M unit :=
  fun m => ({| ss := f (ss m); outbox := outbox m;
               data_received := data_received m |}, Ok tt).
Definition emit (msg : mqtt_message) : M unit :=
  fun m => ({| ss := ss m; outbox := outbox m ++ [msg];
               data_received := data_received m |}, Ok tt).
Definition set_data_received (b : bool) : M unit :=
  fun m => ({| ss := ss m; outbox := outbox m; data_received := b |}, Ok tt).

Declare Scope machine_scope.
Delimit Scope machine_scope with M.
Notation "x <- c ;; k" := (bind c (fun x => k))
  (at level 100, c at next level, right associativity) : machine_scope.
Notation "c ;; k" := (bind c (fun _ => k))
  (at level 100, right associativity) : machine_scope.

(** ** Tolerant extraction ([extract_sensor_values], lines 2528-2544) *)

Definition extract_sensor_values (data : json)
  : result (json * json * json * json * json) :=
  (suhu <- py_get data "suhu" (JInt 0) ;;
   lembab <- py_get data "lembab" (JInt 0) ;;
   adc_raw <- py_get data "adc_raw" (JInt 0) ;;
   adc_percent <- py_get data "adc_percent" (JInt 0) ;;
   local_aqi <- py_get data "local_aqi" (JInt 0) ;;
   aqi_category <- py_get data "aqi_category" (JStr "N/A") ;;
   match data with
   | JDict m =>
       if py_in "environment" m then
         env <- py_get data "environment" (JDict ∅) ;;
         suhu' <- py_get env "temp" suhu ;;
         lembab' <- py_get env "humid" lembab ;;
         Ok (suhu', lembab', adc_raw, local_aqi, aqi_category)
       else Ok (suhu, lembab, adc_raw, local_aqi, aqi_category)
   | _ => Raise TypeError
   end)%res.

(** ** Alert evaluator ([check_alerts], lines 2754-2785) *)

(** The local list [alerts] as it stands when the function reaches its last
    statement. *)
Definition alerts_of (data : json) : result (list alert) :=
  (local_aqi <- py_get data "local_aqi" (JInt 0) ;;
   aqi_category <- py_get data "aqi_category" (JStr "") ;;
   suhu <- py_get data "suhu" (JInt 0) ;;
   lembab <- py_get data "lembab" (JInt 0) ;;
   weather_aqi <- py_get data "weather_aqi" (JInt 0) ;;
   let alerts : list alert := [] in
   alerts <-
     (gt200 <- py_gt local_aqi 200 ;;
      if gt200 then Ok (alerts ++ [("danger", AQI_BERBAHAYA local_aqi)])
      else
        gt100 <- py_gt local_aqi 100 ;;
        if gt100 then Ok (alerts ++ [("warning", AQI_Tidak_Sehat local_aqi)])
        else Ok alerts) ;;
   alerts <-
     (if truthy weather_aqi then
        gt100 <- py_gt weather_aqi 100 ;;
        if gt100 then Ok (alerts ++ [("info", AccuWeather_AQI weather_aqi)])
        else Ok alerts
      else Ok alerts) ;;
   alerts <-
     (gt35 <- py_gt suhu 35 ;;
      if gt35 then
        _ <- format_fixed suhu ;;
        Ok (alerts ++ [("warning", Suhu_tinggi suhu)])
      else Ok alerts) ;;
   alerts <-
     (gt80 <- py_gt lembab 80 ;;
      if gt80 then
        _ <- format_fixed lembab ;;
        Ok (alerts ++ [("warning", Kelembaban_tinggi lembab)])
      else
        lt30 <- py_lt lembab 30 ;;
        if lt30 then
          _ <- format_fixed lembab ;;
          Ok (alerts ++ [("warning", Kelembaban_rendah lembab)])
        else Ok alerts) ;;
   Ok alerts)%res.

(** [check_alerts(data)]: compute the list, then
    [st.session_state.alerts = alerts]. *)
Definition check_alerts (data : json) : M unit :=
  (alerts <- lift (alerts_of data) ;;
   modify_session (set_alerts alerts))%M.

(** ** The classifier, its scaler and its label decoder

    The three artefacts loaded by [load_ml_model] are opaque: any function
    of the right shape, free to raise.  [X] is the single row of the
    feature matrix.  [predict] stands for [ml_model.predict(X)[0]],
    [predict_proba] (present when [hasattr(ml_model, 'predict_proba')])
    for [ml_model.predict_proba(X)[0]], a row of finite probabilities each
    written as a rational and standing for the double nearest to it, and
    the label decoder for
    [ml_label_encoder.inverse_transform([pred_label])[0]], which yields one
    of the strings the encoder was fitted on. *)

Inductive rawclass : Type :=
| CInt (z : Z)
| CStr (s : string).

Record classifier : Type := {
  predict : list json -> result rawclass;
  predict_proba : option (list json -> result (list Q))
}.

(** The module-level globals [ml_model], [ml_scaler], [ml_label_encoder]
    and the behaviour of the publisher connection: [publish_error msg] is
    the exception [publisher.publish] raises on [msg], if any. *)
Record runtime : Type := {
  ml_model : option classifier;
  ml_scaler : option (list json -> result (list json));
  ml_label_encoder : option (rawclass -> result string);
  publish_error : mqtt_message -> option exn
}.

Definition text_map : gmap string string :=
  list_to_map [("AMAN", "Aman"); ("HATI-HATI", "Waspada"); ("BAHAYA", "Bahaya")].

Definition label_map : gmap Z string :=
  list_to_map [(0, "Aman"); (1, "Waspada"); (2, "Bahaya")].

(** [text_map.get(pred_text, pred_text)] *)
Definition text_map_get (pred_text : string) : string :=
  match text_map !! pred_text with Some t => t | None => pred_text end.

(** [label_map.get(pred_label, "Unknown")] *)
Definition label_map_get (pred_label : rawclass) : string :=
  match pred_label with
  | CInt z => match label_map !! z with Some t => t | None => "Unknown" end
  | CStr _ => "Unknown"
  end.

(** [np.max(proba)]: the largest entry; an empty row raises [ValueError]. *)
Definition np_max (proba : list Q) : result Q :=
  match proba with
  | [] => Raise ValueError
  | p :: rest =>
      Ok (fold_left (fun acc x => if Qle_bool acc x then x else acc) rest p)
  end.

(** [float(top)]: the double a probability stands for. *)
Definition float_of (top : Q) : pyfloat := round_double top.

(** Lines 2580-2604: from the feature triple to [(pred_text, confidence)]. *)
Definition classify (rt : runtime) (model : classifier)
    (suhu lembab aqi : json) : result (string * option pyfloat) :=
  (let X := [suhu; lembab; aqi] in
   X <- match ml_scaler rt with
        | Some scaler => scaler X
        | None => Ok X
        end ;;
   pred_label <- predict model X ;;
   pred_text <- match ml_label_encoder rt with
                | Some inverse_transform =>
                    pred_text <- inverse_transform pred_label ;;
                    Ok (text_map_get pred_text)
                | None => Ok (label_map_get pred_label)
                end ;;
   confidence <- match predict_proba model with
                 | Some proba_of =>
                     proba <- proba_of X ;;
                     top <- np_max proba ;;
                     Ok (Some (float_mul (float_of top) 100))
                 | None => Ok None
                 end ;;
   Ok (pred_text, confidence))%res.

(** ** Command publisher *)

(** [publisher.publish(topic, payload)] on the cached publisher
    connection. *)
Definition publish (rt : runtime) (msg : mqtt_message) : M unit :=
  match publish_error rt msg with
  | Some e => raise e
  | None => emit msg
  end.

(** [int(confidence) if confidence else 0] *)
Definition confidence_int (confidence : option pyfloat) : result Z :=
  match confidence with
  | Some c => if float_truthy c then float_int c else Ok 0
  | None => Ok 0
  end.

(** [send_ml_prediction_to_esp32(status, confidence)], lines 2471-2485.
    The keywords of the log call are [status] and [confidence]. *)
Definition send_ml_prediction_to_esp32 (rt : runtime)
    (status : string) (confidence : option pyfloat) : M bool :=
  try_except
    (c <- lift (confidence_int confidence) ;;
     let payload := JDict (list_to_map [
         ("cmd", JStr "set_status");
         ("status", JStr status);
         ("confidence", JInt c)]) in
     publish rt {| topic := TOPIC_COMMAND; body := payload |} ;;
     lift (TerminalLogger.command_sent "set_status" ["status"; "confidence"]) ;;
     ret true)%M
    (fun _ => ret false).

(** [send_command_to_esp32(command, **kwargs)], lines 2487-2499.  A
    keyword argument named [command] cannot be bound next to the
    positional one: the call itself raises [TypeError], outside the [try]
    of the body. *)
Definition send_command_to_esp32 (rt : runtime)
    (command : string) (kwargs : gmap string json) : M bool :=
  match kwargs !! "command" with
  | Some _ => raise TypeError
  | None =>
      try_except
        (let payload_dict := <["cmd" := JStr command]> (∅ : gmap string json) in
         let payload_dict := kwargs ∪ payload_dict in
         publish rt {| topic := TOPIC_COMMAND; body := JDict payload_dict |} ;;
         lift (TerminalLogger.command_sent command
                 (map fst (map_to_list kwargs))) ;;
         ret true)%M
        (fun _ => ret false)
  end.

(** [publish_prediction(pred_data)], lines 2848-2857. *)
Definition publish_prediction (rt : runtime) (pred_data : json) : M bool :=
  try_except
    (publish rt {| topic := TOPIC_PREDICTION; body := pred_data |} ;;
     ret true)%M
    (fun _ => ret false).

(** ** The ingestion loop ([process_incoming_data], lines 2546-2651) *)

(** Lines 2566-2569: the four appends. *)
Definition append_history (now : Z) (suhu lembab local_aqi : json)
    (s : session) : session :=
  let h := data_history s in
  set_data_history
    {| h_time := deque_append 100 now (h_time h);
       h_suhu := deque_append 100 suhu (h_suhu h);
       h_lembab := deque_append 100 lembab (h_lembab h);
       h_aqi := deque_append 100 local_aqi (h_aqi h) |} s.

(** Lines 2578-2614: the inference step. *)
Definition inference_step (rt : runtime) (suhu lembab aqi : json) : M unit :=
  match ml_model rt with
  | Some model =>
      try_except
        (r <- lift (classify rt model suhu lembab aqi) ;;
         let '(pred_text, confidence) := r in
         modify_session
           (set_ml_prediction {| status := pred_text; confidence := confidence |}) ;;
         sent_ok <- send_ml_prediction_to_esp32 rt pred_text confidence ;;
         lift (TerminalLogger.ml_prediction suhu lembab aqi))%M
        (fun _ =>
           modify_session
             (set_ml_prediction {| status := "Error"; confidence := None |}))
  | None => ret tt
  end.

(** Lines 2553-2621: the body of the [try] for one queue item, processed at
    instant [now]. *)
Definition process_item (rt : runtime) (now : Z) (it : item) : M unit :=
  (let data := payload it in
   let ts := ts it in
   modify_session (set_sensor_data data) ;;
   modify_session (set_last_update (At ts)) ;;
   x <- lift (extract_sensor_values data) ;;
   let '(suhu, lembab, adc_raw, local_aqi, aqi_category) := x in
   modify_session (append_history now suhu lembab local_aqi) ;;
   rssi <- lift (py_get data "rssi" JNull) ;;
   lift (TerminalLogger.sensor_data suhu lembab local_aqi rssi adc_raw) ;;
   let aqi := local_aqi in
   inference_step rt suhu lembab aqi ;;
   check_alerts data ;;
   set_data_received true ;;
   modify_session (set_mqtt_connected true))%M.

(** The [while not q.empty()] loop over the items found in the queue, each
    paired with the instant it is processed at; [except Exception] logs and
    goes on to the next item. *)
Fixpoint drain (rt : runtime) (q : list (Z * item)) : M unit :=
  match q with
  | [] => ret tt
  | (now, it) :: rest =>
      (try_except (process_item rt now it) (fun _ => ret tt) ;;
       drain rt rest)%M
  end.

(** Lines 2628-2649: the staleness rule, run at instant [now].
    [last_time] is the stamp placed on the date of [now], so
    [time_diff] is the time of day of [now] minus the stamp; it is kept in
    microseconds, where [total_seconds() > 30] reads [> 30_000_000].  The
    [except] branch answers a stamp [strptime] cannot read; the worker's
    stamps are all readable, so the branch has no counterpart here. *)
Definition check_staleness (now : Z) : M unit :=
  fun m =>
    match last_update (ss m) with
    | Never => (m, Ok tt)
    | At hms =>
        let time_diff := time_of_day now - hms * US_PER_SECOND in
        if 30 * US_PER_SECOND <? time_diff then
          modify_session (set_mqtt_connected false) m
        else if data_received m then
          modify_session (set_mqtt_connected true) m
        else (m, Ok tt)
    end.

(** One call of [process_incoming_data()]: [q] is what the queue holds,
    [now] the instant of the staleness check.  Returns [data_received]. *)
Definition process_incoming_data (rt : runtime) (q : list (Z * item))
    (now : Z) : M bool :=
  (set_data_received false ;;
   drain rt q ;;
   check_staleness now ;;
   fun m => (m, Ok (data_received m)))%M.

(** [process_device_responses()], lines 2501-2512. *)
Fixpoint process_device_responses (q : list item) (responses : list item)
  : M (list item) :=
  match q with
  | [] => ret responses
  | it :: rest =>
      (modify_session (set_last_device_response (Some it)) ;;
       process_device_responses rest (responses ++ [it]))%M
  end.

(** One refresh of the page, lines 2859-2863. *)
Record tick : Type := {
  sensor_queue : list (Z * item);
  response_queue : list item;
  check_time : Z
}.

Definition run_tick (rt : runtime) (tk : tick) (m : machine) : machine :=
  let m1 := fst (process_incoming_data rt (sensor_queue tk) (check_time tk) m) in
  fst (process_device_responses (response_queue tk) [] m1).

Definition run_ticks (rt : runtime) (tks : list tick) (m : machine) : machine :=
  fold_left (fun m tk => run_tick rt tk m) tks m.

Definition initial_machine : machine :=
  {| ss := initial_session; outbox := []; data_received := false |}.

(** ** The MQTT worker ([mqtt_worker], lines 2388-2449)

    The worker thread is modelled against a script of what the transport
    (paho) does.  One turn of [while True] is an [attempt]: how
    [client.connect] ended, the callbacks dispatched while
    [client.loop_forever()] ran, and how [loop_forever] ended.  The worker
    turns a script into the sequence of what it did and observed. *)

Module MqttWorker.

Inductive action : Type :=
| Connect (broker : string) (port keepalive : Z)
| LoopForever
| Subscribe (topic : string) (qos : Z)
| Sleep (seconds : Z).

(** A callback invocation: [_on_connect] with its [rc]; [_on_message]
    with the topic, what [json.loads(msg.payload.decode())] gives and the
    instant of reception; [_on_disconnect] with its [rc]. *)
Inductive transport_event : Type :=
| ConnAck (rc : Z)
| Message (topic : string) (decoded : result json) (received : Z)
| Disconnect (rc : Z).

Inductive observation : Type :=
| Did (a : action)
| Saw (ev : transport_event)
| Caught (e : exn).

Inductive outcome : Type :=
| Returns
| Raises (e : exn).

Record attempt : Type := {
  connect_result : outcome;
  events : list transport_event;
  loop_result : outcome
}.

(** What the worker thread writes: the flag
    [st.session_state.mqtt_connected] and the two queues. *)
Record worker : Type := {
  connected : bool;
  in_q : list item;
  response_q : list item
}.

Definition set_connected (b : bool) (w : worker) : worker :=
  {| connected := b; in_q := in_q w; response_q := response_q w |}.

Section Worker.

Variables (broker : string) (port : Z) (topic_sensor topic_response : string).

Definition _on_connect (rc : Z) (w : worker) : worker * list observation :=
if rc =? 0 then
  (set_connected true w,
   [Did (Subscribe topic_sensor 1); Did (Subscribe topic_response 1)])
else (set_connected false w, []).

Definition _on_message (topic : string) (decoded : result json)
  (received : Z) (w : worker) : worker * list observation :=
match decoded with
| Ok data =>
    let it := {| ts := strftime_HMS received; payload := data |} in
    if String.eqb topic topic_sensor then
      ({| connected := connected w; in_q := in_q w ++ [it];
          response_q := response_q w |}, [])
    else if String.eqb topic topic_response then
      ({| connected := connected w; in_q := in_q w;
          response_q := response_q w ++ [it] |}, [])
    else (w, [])
| Raise _ => (w, [])
end.

Definition _on_disconnect (rc : Z) (w : worker) : worker * list observation :=
(set_connected false w, []).

Definition dispatch (ev : transport_event) (w : worker)
: worker * list observation :=
let '(w', obs) :=
  match ev with
  | ConnAck rc => _on_connect rc w
  | Message topic decoded received => _on_message topic decoded received w
  | Disconnect rc => _on_disconnect rc w
  end in
(w', Saw ev :: obs).

(** The callbacks dispatched during one [client.loop_forever()]. *)
Fixpoint loop_forever (evs : list transport_event) (w : worker)
: worker * list observation :=
match evs with
| [] => (w, [])
| ev :: rest =>
    let '(w1, obs1) := dispatch ev w in
    let '(w2, obs2) := loop_forever rest w1 in
    (w2, obs1 ++ obs2)
end.

(** [except Exception as e]: log, clear the flag, [time.sleep(3)]. *)
Definition on_exception (e : exn) (w : worker) : worker * list observation :=
(set_connected false w, [Caught e; Did (Sleep 3)]).

(** One turn of the [while True] loop. *)
Definition attempt_once (a : attempt) (w : worker) : worker * list observation :=
match connect_result a with
| Raises e =>
    let '(w', obs) := on_exception e w in
    (w', Did (Connect broker port 60) :: obs)
| Returns =>
    let '(w1, obs1) := loop_forever (events a) w in
    let '(w2, obs2) :=
      match loop_result a with
      | Raises e => on_exception e w1
      | Returns => (w1, [])
      end in
    (w2, Did (Connect broker port 60) :: Did LoopForever :: obs1 ++ obs2)
end.

(** The loop over a script: after a turn, whatever its outcome, comes
  the next turn. *)
Fixpoint mqtt_worker (script : list attempt) (w : worker)
: worker * list observation :=
match script with
| [] => (w, [])
| a :: rest =>
    let '(w1, obs1) := attempt_once a w in
    let '(w2, obs2) := mqtt_worker rest w1 in
    (w2, obs1 ++ obs2)
end.

End Worker.

(** Whether a turn ends in the exception handler. *)
Definition fails (a : attempt) : bool :=
  match connect_result a with
  | Raises _ => true
  | Returns => match loop_result a with Raises _ => true | Returns => false end
  end.

Definition is_connect (o : observation) : bool :=
  match o with Did (Connect _ _ _) => true | _ => false end.
Definition is_sleep (o : observation) : bool :=
  match o with Did (Sleep _) => true | _ => false end.

End MqttWorker.

(** ** Loading the model ([load_ml_model], lines 294-331)

    The file system and [joblib] are a pair of functions: whether a path
    exists, and what [joblib.load] gives for a path, either the object
    held by the file or the text [str(e)] of the exception it raises.  The
    objects are those a pickle of a model, scaler or encoder holds (a
    pickle of [None] is left out).  The diagnostic is kept as the template
    it comes from and the text the template embeds. *)

Definition MODEL_PATH : string := "model_svm_rbf.pkl".
Definition SCALER_PATH : string := "scaler.pkl".
Definition LABEL_ENCODER_PATH : string := "label_encoder.pkl".

Inductive loaded (obj : Type) : Type :=
| Loaded (o : obj)
| LoadRaises (error_msg : string).
Arguments Loaded {obj} o.
Arguments LoadRaises {obj} error_msg.

Record filesystem (obj : Type) : Type := {
  path_exists : string -> bool;
  joblib_load : string -> loaded obj
}.
Arguments path_exists {obj} f p.
Arguments joblib_load {obj} f p.

Inductive load_error : Type :=
| Model_file_not_found (name : string)
| Model_incompatible
| Failed_to_load_model (error_msg : string).

(** [os.path.basename] on a POSIX path: what follows the last slash
    (character 47). *)
Fixpoint basename_from (cur s : string) : string :=
  match s with
  | EmptyString => cur
  | String c rest =>
      if Ascii.eqb c (Ascii.ascii_of_nat 47) then basename_from EmptyString rest
      else basename_from (cur ++ String c EmptyString)%string rest
  end.
Definition basename (path : string) : string := basename_from EmptyString path.

(** [pat in s] for strings. *)
Fixpoint contains (pat s : string) : bool :=
  String.prefix pat s
  || match s with
     | EmptyString => false
     | String _ rest => contains pat rest
     end.

(** The [try] body of [load_ml_model]: the model, then the scaler and the
    label encoder when their files exist; the first load that raises ends
    it. *)
Definition load_artifacts {obj : Type} (fs : filesystem obj) (model_path : string)
  : loaded (obj * option obj * option obj) :=
  match joblib_load fs model_path with
  | LoadRaises e => LoadRaises e
  | Loaded model =>
      match (if path_exists fs SCALER_PATH then
               match joblib_load fs SCALER_PATH with
               | Loaded scaler => Loaded (Some scaler)
               | LoadRaises e => LoadRaises e
               end
             else Loaded None) with
      | LoadRaises e => LoadRaises e
      | Loaded scaler =>
          match (if path_exists fs LABEL_ENCODER_PATH then
                   match joblib_load fs LABEL_ENCODER_PATH with
                   | Loaded label_encoder => Loaded (Some label_encoder)
                   | LoadRaises e => LoadRaises e
                   end
                 else Loaded None) with
          | LoadRaises e => LoadRaises e
          | Loaded label_encoder => Loaded (model, scaler, label_encoder)
          end
      end
  end.

(** [load_ml_model(_model_path)]: the tuple
    [(model, scaler, label_encoder, error)]. *)
Definition load_ml_model {obj : Type} (fs : filesystem obj)
    (_model_path : option string)
  : option obj * option obj * option obj * option load_error :=
  let model_path :=
    match _model_path with
    | Some path => if String.eqb path "" then MODEL_PATH else path
    | None => MODEL_PATH
    end in
  if negb (path_exists fs model_path) then
    (None, None, None, Some (Model_file_not_found (basename model_path)))
  else
    match load_artifacts fs model_path with
    | Loaded (model, scaler, label_encoder) =>
        (Some model, scaler, label_encoder, None)
    | LoadRaises error_msg =>
        if contains "incompatible dtype" error_msg
           || contains "node array" error_msg
        then (None, None, None, Some Model_incompatible)
        else (None, None, None, Some (Failed_to_load_model error_msg))
    end.

(** ** Theme colours

    Lines 347-380: [THEMES], by theme name. *)
Inductive theme_name : Type := Dark | Light.

Definition THEMES (name : theme_name) : gmap string string :=
  match name with
  | Dark =>
      list_to_map
        [ ("bg_primary", "#0d1117");
          ("bg_secondary", "#161b22");
          ("bg_card", "linear-gradient(145deg, #1c2128, #21262d)");
          ("bg_sidebar", "linear-gradient(180deg, #1c2128 0%, #0d1117 100%)");
          ("text_primary", "#e6edf3");
          ("text_secondary", "#8b949e");
          ("accent", "#2f9e8f");
          ("accent_secondary", "#f0883e");
          ("accent_gradient", "linear-gradient(90deg, #2f9e8f, #58d1c9)");
          ("success", "#3fb950");
          ("warning", "#d29922");
          ("danger", "#f85149");
          ("border", "rgba(48, 54, 61, 0.8)");
          ("chart_bg", "rgba(0,0,0,0.1)");
          ("grid", "rgba(255,255,255,0.08)") ]
  | Light =>
      list_to_map
        [ ("bg_primary", "#ffffff");
          ("bg_secondary", "#f6f8fa");
          ("bg_card", "linear-gradient(145deg, #ffffff, #f6f8fa)");
          ("bg_sidebar", "linear-gradient(180deg, #f6f8fa 0%, #e8ebef 100%)");
          ("text_primary", "#1f2328");
          ("text_secondary", "#656d76");
          ("accent", "#0969da");
          ("accent_secondary", "#bf8700");
          ("accent_gradient", "linear-gradient(90deg, #0969da, #54aeff)");
          ("success", "#1a7f37");
          ("warning", "#9a6700");
          ("danger", "#cf222e");
          ("border", "rgba(208, 215, 222, 1)");
          ("chart_bg", "rgba(255,255,255,0.95)");
          ("grid", "rgba(0,0,0,0.1)") ]
  end.

(** ** What the page shows for the air quality

    Lines 3131-3145: the icon and the theme colour of the AQI card, each
    named by its key in [SVG_ICONS] and in the theme. *)
Definition aqi_card (local_aqi : json) : result (string * string) :=
  (le50 <- py_le local_aqi 50 ;;
   if le50 then Ok ("gas", "success") else
   le100 <- py_le local_aqi 100 ;;
   if le100 then Ok ("gas", "success") else
   le150 <- py_le local_aqi 150 ;;
   if le150 then Ok ("alert", "warning") else
   le200 <- py_le local_aqi 200 ;;
   if le200 then Ok ("alert", "warning") else
   Ok ("fire", "danger"))%res.

(** Lines 3283-3290: the colour of the bar of the AQI gauge. *)
Definition aqi_bar_color (local_aqi : json) : result string :=
  (le50 <- py_le local_aqi 50 ;;
   if le50 then Ok "#3fb950" else
   le100 <- py_le local_aqi 100 ;;
   if le100 then Ok "#d29922" else
   le200 <- py_le local_aqi 200 ;;
   if le200 then Ok "#f0883e" else
   Ok "#f85149")%res.

(** * Vocabulary of the properties and example inputs *)

(** ** Alert evaluator *)

(** The payloads of the two worked examples. *)
Definition example_hot_humid_polluted : json :=
  JDict (list_to_map
    [("local_aqi", JInt 250); ("suhu", JInt 36); ("lembab", JInt 85)]).

Definition example_comfortable : json :=
  JDict (list_to_map
    [("local_aqi", JInt 40); ("suhu", JInt 22); ("lembab", JInt 50)]).

(** A reading on which every group of rules has a rule that applies. *)
Definition example_every_group_fields : gmap string json :=
  list_to_map
    [("local_aqi", JInt 250); ("weather_aqi", JInt 150);
     ("suhu", JInt 36); ("lembab", JInt 85)].
Definition example_every_group : json := JDict example_every_group_fields.

(** [m.get(key, default)] on a dict. *)
Definition field (m : gmap string json) (key : string) (default : json) : json :=
  match m !! key with Some v => v | None => default end.

(** The comparisons as total tests: false where Python would raise. *)
Definition gt (v : json) (c : Z) : bool :=
  match py_gt v c with Ok b => b | Raise _ => false end.
Definition lt (v : json) (c : Z) : bool :=
  match py_lt v c with Ok b => b | Raise _ => false end.

Definition is_numeric (v : json) : bool :=
  match as_number v with Some _ => true | None => false end.
Definition formats_fixed (v : json) : bool :=
  match format_fixed v with Ok _ => true | Raise _ => false end.

(** The payloads on which the alert evaluation runs to its end: the local
    AQI is a number, the weather AQI is falsy or a number, temperature and
    humidity are numbers a fixed-point format accepts (absent fields take
    their defaults). *)
Definition alert_fields_ok (m : gmap string json) : bool :=
  is_numeric (field m "local_aqi" (JInt 0))
  && (negb (truthy (field m "weather_aqi" (JInt 0)))
      || is_numeric (field m "weather_aqi" (JInt 0)))
  && formats_fixed (field m "suhu" (JInt 0))
  && formats_fixed (field m "lembab" (JInt 0)).

(** The four groups of rules, each a function of its own field only. *)
Definition local_aqi_alerts (local_aqi : json) : list alert :=
  if gt local_aqi 200 then [("danger", AQI_BERBAHAYA local_aqi)]
  else if gt local_aqi 100 then [("warning", AQI_Tidak_Sehat local_aqi)]
  else [].
Definition weather_alerts (weather_aqi : json) : list alert :=
  if truthy weather_aqi && gt weather_aqi 100
  then [("info", AccuWeather_AQI weather_aqi)] else [].
Definition suhu_alerts (suhu : json) : list alert :=
  if gt suhu 35 then [("warning", Suhu_tinggi suhu)] else [].
Definition lembab_alerts (lembab : json) : list alert :=
  if gt lembab 80 then [("warning", Kelembaban_tinggi lembab)]
  else if lt lembab 30 then [("warning", Kelembaban_rendah lembab)]
  else [].

(** A payload without a top-level [lembab] whose [weather_aqi] is a
    non-empty string. *)
Definition example_weather_text_fields : gmap string json :=
  list_to_map
    [("suhu", JInt 25); ("local_aqi", JInt 40); ("weather_aqi", JStr "N/A")].

(** A legacy payload: temperature and humidity only under [environment]. *)
Definition example_legacy_fields : gmap string json :=
  list_to_map
    [("environment",
      JDict (list_to_map [("temp", JInt 25); ("humid", JInt 50)]));
     ("local_aqi", JInt 40)].

(** No model loaded; a publisher that never raises. *)
Definition rt_no_model : runtime :=
  {| ml_model := None; ml_scaler := None; ml_label_encoder := None;
     publish_error := fun _ => None |}.

(** ** Tolerant extraction *)

(** The first two components of what [extract_sensor_values] returns. *)
Definition temperature_humidity (data : json) : option (json * json) :=
  match extract_sensor_values data with
  | Ok (suhu, lembab, _, _, _) => Some (suhu, lembab)
  | Raise _ => None
  end.

(** The legacy-wrapped form of a flat payload (not in the source; the
    shape the backward-compatibility branch is written for): [suhu] and
    [lembab] leave the top level and reappear as [temp] and [humid] under
    [environment]. *)
Definition legacy_environment (P : gmap string json) : gmap string json :=
  let e : gmap string json :=
    match P !! "suhu" with Some v => {["temp" := v]} | None => ∅ end in
  match P !! "lembab" with Some v => <["humid" := v]> e | None => e end.

Definition legacy_wrap (P : gmap string json) : gmap string json :=
  <["environment" := JDict (legacy_environment P)]>
    (delete "suhu" (delete "lembab" P)).

(** A payload that carries both shapes at once. *)
Definition example_both_shapes : json :=
  JDict (list_to_map
    [("suhu", JInt 28); ("lembab", JInt 60);
     ("environment",
      JDict (list_to_map [("temp", JInt 30); ("humid", JInt 70)]))]).

(** ** Invariants of monadic code *)

(** [c] keeps the invariant [I], whether it returns or raises. *)
Definition keeps {A : Type} (I : machine -> Prop) (c : M A) : Prop :=
  forall m, I m -> I (fst (c m)).

(** ** History window *)

Definition history_ok (h : history) : Prop :=
  (length (h_time h) <= 100)%nat
  /\ length (h_suhu h) = length (h_time h)
  /\ length (h_lembab h) = length (h_time h)
  /\ length (h_aqi h) = length (h_time h).

Definition machine_history_ok (m : machine) : Prop :=
  history_ok (data_history (ss m)).

(** The [i]-th of a run of numbered messages, processed at instant [i]. *)
Definition numbered_item (i : nat) : Z * item :=
  (Z.of_nat i,
   {| ts := 0;
      payload := JDict (list_to_map [("suhu", JInt (Z.of_nat i))]) |}).

(** A refresh that finds the first [n] numbered messages in the queue. *)
Definition tick_of_items (n : nat) : tick :=
  {| sensor_queue := map numbered_item (seq 0 n);
     response_queue := [];
     check_time := 0 |}.

(** ** Staleness rule *)

(** The instant [h:m:s] of day [d] (day 0 starts at instant 0). *)
Definition instant (d h m s : Z) : Z :=
  (((d * 24 + h) * 60 + m) * 60 + s) * US_PER_SECOND.

(** The reading of the end-to-end scenario:
    [{"suhu": 28.5, "lembab": 60, "local_aqi": 45}]. *)
Definition example_reading : json :=
  JDict (list_to_map
    [("suhu", JFloat (FFin (57 # 2))); ("lembab", JInt 60);
     ("local_aqi", JInt 45)]).

(** A message received by the worker at instant [received] and found in the
    queue by a refresh that processes it at instant [processed]. *)
Definition message_at (received processed : Z) (data : json) : Z * item :=
  (processed, {| ts := strftime_HMS received; payload := data |}).

(** A refresh at [now] that finds one reading, received one second
    before. *)
Definition tick_with_reading (now : Z) : tick :=
  {| sensor_queue := [message_at (now - US_PER_SECOND) now example_reading];
     response_queue := [];
     check_time := now |}.

(** A refresh at [now] that finds both queues empty. *)
Definition tick_without_data (now : Z) : tick :=
  {| sensor_queue := []; response_queue := []; check_time := now |}.

(** ** What the ingestion loop publishes *)

(** A classifier that answers class 0 with probabilities 0.9, 0.07, 0.03,
    used without scaler and without label decoder; the publisher never
    raises. *)
Definition rt_with_model : runtime :=
  {| ml_model :=
       Some {| predict := fun _ => Ok (CInt 0);
               predict_proba :=
                 Some (fun _ => Ok [(9 # 10)%Q; (7 # 100)%Q; (3 # 100)%Q]) |};
     ml_scaler := None;
     ml_label_encoder := None;
     publish_error := fun _ => None |}.

Definition on_command_topic (m : machine) : Prop :=
  Forall (fun msg => topic msg = TOPIC_COMMAND) (outbox m).

(** ** Inference step *)

(** The display table and the ordinal mapping, written out case by case. *)
Definition display_table (decoded : string) : string :=
  if String.eqb decoded "AMAN" then "Aman"
  else if String.eqb decoded "HATI-HATI" then "Waspada"
  else if String.eqb decoded "BAHAYA" then "Bahaya"
  else decoded.

Definition ordinal_table (raw : rawclass) : string :=
  match raw with
  | CInt 0 => "Aman"
  | CInt 1 => "Waspada"
  | CInt 2 => "Bahaya"
  | _ => "Unknown"
  end.

(** [top] is a largest entry of [proba]. *)
Definition is_maximum (top : Q) (proba : list Q) : Prop :=
  In top proba /\ forall p, In p proba -> (p <= top)%Q.

Definition known_labels : list string :=
  ["Aman"; "Waspada"; "Bahaya"; "Unknown"; "Error"].

Definition error_prediction : prediction :=
  {| status := "Error"; confidence := None |}.

(** A model whose prediction raises, and one behind a label decoder that
    answers a string outside the display table. *)
Definition rt_model_raises : runtime :=
  {| ml_model :=
       Some {| predict := fun _ => Raise ValueError; predict_proba := None |};
     ml_scaler := None;
     ml_label_encoder := None;
     publish_error := fun _ => None |}.

Definition rt_decoder_normal : runtime :=
  {| ml_model :=
       Some {| predict := fun _ => Ok (CInt 0); predict_proba := None |};
     ml_scaler := None;
     ml_label_encoder := Some (fun _ => Ok "NORMAL");
     publish_error := fun _ => None |}.

(** ** The MQTT worker *)

Import MqttWorker.

(** What must follow an observation [x] when the rest of the sequence is
    [post]: a caught exception is followed by the three-second sleep and
    then, if the sequence goes on, by a connection attempt; a successful
    connection acknowledgement is followed by the two subscriptions. *)
Definition followed_ok (broker : string) (port : Z)
    (topic_sensor topic_response : string)
    (x : observation) (post : list observation) : Prop :=
  match x with
  | Caught _ =>
      exists post', post = Did (Sleep 3) :: post'
        /\ (post' = [] \/ exists post'', post' = Did (Connect broker port 60) :: post'')
  | Saw (ConnAck 0) =>
      exists post',
        post = Did (Subscribe topic_sensor 1)
               :: Did (Subscribe topic_response 1) :: post'
  | _ => True
  end.

Fixpoint obeys (broker : string) (port : Z)
    (topic_sensor topic_response : string)
    (tr : list observation) : Prop :=
  match tr with
  | [] => True
  | x :: rest =>
      followed_ok broker port topic_sensor topic_response x rest
      /\ obeys broker port topic_sensor topic_response rest
  end.

(** A script with a refused connection, a session that is acknowledged,
    delivers a reading and breaks, and a third turn. *)
Definition example_script : list attempt :=
  [ {| connect_result := Raises OSError; events := []; loop_result := Returns |};
    {| connect_result := Returns;
       events := [ConnAck 0; Message TOPIC_DATA (Ok example_reading) 0;
                  Disconnect 7];
       loop_result := Raises OSError |};
    {| connect_result := Returns; events := [ConnAck 0]; loop_result := Returns |} ].

Definition initial_worker : worker :=
  {| connected := false; in_q := []; response_q := [] |}.

(** A script in which nothing raises: a refused handshake; a session
    that is acknowledged and reported lost; a third turn in which the
    session is lost and the library reconnects by itself, inside the same
    [loop_forever]. *)
Definition script_reported_failures : list attempt :=
  [ {| connect_result := Returns; events := [ConnAck 5]; loop_result := Returns |};
    {| connect_result := Returns; events := [ConnAck 0; Disconnect 7];
       loop_result := Returns |};
    {| connect_result := Returns; events := [ConnAck 0; Disconnect 7; ConnAck 0];
       loop_result := Returns |} ].

(** ** Vocabulary of the further properties *)

(** The statements of [process_item] that follow the four appends. *)
Definition process_item_tail (rt : runtime)
    (data suhu lembab adc_raw local_aqi : json) : M unit :=
  (rssi <- lift (py_get data "rssi" JNull) ;;
   lift (TerminalLogger.sensor_data suhu lembab local_aqi rssi adc_raw) ;;
   let aqi := local_aqi in
   inference_step rt suhu lembab aqi ;;
   check_alerts data ;;
   set_data_received true ;;
   modify_session (set_mqtt_connected true))%M.

(** The log line of a payload: [logger.sensor_data] on what the
    extraction and [data.get('rssi', None)] give. *)
Definition log_line (data suhu lembab adc_raw local_aqi : json) : result unit :=
  (rssi <- py_get data "rssi" JNull ;;
   TerminalLogger.sensor_data suhu lembab local_aqi rssi adc_raw)%res.

(** A queue item that goes through the whole [try] body: its extraction,
    its log line and its alert evaluation all return. *)
Definition accepts (it : item) : bool :=
  match extract_sensor_values (payload it) with
  | Ok (suhu, lembab, adc_raw, local_aqi, _) =>
      match log_line (payload it) suhu lembab adc_raw local_aqi with
      | Ok _ =>
          match alerts_of (payload it) with
          | Ok _ => true
          | Raise _ => false
          end
      | Raise _ => false
      end
  | Raise _ => false
  end.

(** What a queue appends to the history: instant, temperature, humidity
    and AQI of each item whose extraction returns, in arrival order. *)
Definition extracted (q : list (Z * item)) : list (Z * json * json * json) :=
  flat_map
    (fun x =>
       match extract_sensor_values (payload (snd x)) with
       | Ok (suhu, lembab, _, local_aqi, _) => [(fst x, suhu, lembab, local_aqi)]
       | Raise _ => []
       end) q.

(** The four appends, on the history itself. *)
Definition push_history (h : history) (r : Z * json * json * json) : history :=
  let '(now, suhu, lembab, local_aqi) := r in
  {| h_time := deque_append 100 now (h_time h);
     h_suhu := deque_append 100 suhu (h_suhu h);
     h_lembab := deque_append 100 lembab (h_lembab h);
     h_aqi := deque_append 100 local_aqi (h_aqi h) |}.

(** One turn of the [while] loop of [process_incoming_data]. *)
Definition drain_step (rt : runtime) (now : Z) (it : item) (m : machine) : machine :=
  fst (try_except (process_item rt now it) (fun _ => ret tt) m).

(** A flat payload with well-typed fields: no [environment] object;
    temperature and humidity numbers a fixed-point format accepts; the
    local AQI a number; [rssi] absent, [null] or a number; [adc_raw]
    anything but a list or an object; the weather AQI falsy or a number. *)
Definition well_typed_flat (m : gmap string json) : bool :=
  negb (py_in "environment" m)
  && formats_fixed (field m "suhu" (JInt 0))
  && formats_fixed (field m "lembab" (JInt 0))
  && is_numeric (field m "local_aqi" (JInt 0))
  && (is_none (field m "rssi" JNull) || is_numeric (field m "rssi" JNull))
  && (is_none (field m "adc_raw" (JInt 0))
      || match format_aligned (field m "adc_raw" (JInt 0)) with
         | Ok _ => true
         | Raise _ => false
         end)
  && (negb (truthy (field m "weather_aqi" (JInt 0)))
      || is_numeric (field m "weather_aqi" (JInt 0))).

(** The fields of the reading of the end-to-end scenario. *)
Definition example_reading_fields : gmap string json :=
  list_to_map
    [("suhu", JFloat (FFin (57 # 2))); ("lembab", JInt 60);
     ("local_aqi", JInt 45)].

(** The last [n] entries of a list. *)
Definition last_entries {A : Type} (n : nat) (l : list A) : list A :=
  skipn (length l - n) l.

(** The events the callbacks of a turn see: none when [connect] raised. *)
Definition delivered (a : attempt) : list transport_event :=
  match connect_result a with
  | Returns => events a
  | Raises _ => []
  end.

(** The queue items of the decodable messages of a topic. *)
Definition items_on (keep : string -> bool) (evs : list transport_event)
  : list item :=
  flat_map
    (fun ev =>
       match ev with
       | Message topic (Ok data) received =>
           if keep topic
           then [{| ts := strftime_HMS received; payload := data |}]
           else []
       | _ => []
       end) evs.

(** A classifier whose largest probability is the double nearest to
    0.6, which is below 0.6: the product with 100 is 60.0 in doubles,
    below 60 in the reals. *)
Definition example_classifier_sixty : classifier :=
  {| predict := fun _ => Ok (CInt 0);
     predict_proba :=
       Some (fun _ => Ok [(6 # 10)%Q; (3 # 10)%Q; (1 # 10)%Q]) |}.

(** The path [load_ml_model] reads the model from: an empty string is
    falsy, as [None] is. *)
Definition chosen_model_path (_model_path : option string) : string :=
  match _model_path with
  | Some path => if String.eqb path "" then MODEL_PATH else path
  | None => MODEL_PATH
  end.

(** The message of the failure of a load. *)
Definition load_failure (error_msg : string) : load_error :=
  if contains "incompatible dtype" error_msg || contains "node array" error_msg
  then Model_incompatible
  else Failed_to_load_model error_msg.

(** The topics [_on_message] routes to each queue: the sensor topic is
    tested first. *)
Definition to_sensor_queue (topic_sensor : string) (topic : string) : bool :=
  String.eqb topic topic_sensor.
Definition to_response_queue (topic_sensor topic_response : string)
    (topic : string) : bool :=
  negb (String.eqb topic topic_sensor) && String.eqb topic topic_response.

Definition is_nan (v : json) : bool :=
  match v with JFloat FNaN => true | _ => false end.

(** The bands of the local AQI that the four graders tell apart: up to
    50, up to 100, up to 150, up to 200, above 200, and NaN, which no
    comparison accepts. *)
Inductive aqi_level : Type :=
| Good | Moderate | Sensitive | Unhealthy | Hazardous | NotANumber.

Definition aqi_level_of (v : json) : aqi_level :=
  if is_nan v then NotANumber
  else if gt v 200 then Hazardous
  else if gt v 150 then Unhealthy
  else if gt v 100 then Sensitive
  else if gt v 50 then Moderate
  else Good.

(** A file system for the examples: the model file is there and loads,
    the scaler file is there and is corrupt. *)
Definition fs_corrupt_scaler : filesystem nat :=
  {| path_exists := fun p => String.eqb p MODEL_PATH || String.eqb p SCALER_PATH;
     joblib_load := fun p =>
       if String.eqb p MODEL_PATH then Loaded 1%nat
       else LoadRaises "invalid load key" |}.

(** * Properties *)

(** ** Alert evaluator *)

Lemma py_gt_numeric (v : json) (c : Z) :
  is_numeric v = true -> py_gt v c = Ok (gt v c).
Proof.
  unfold is_numeric, gt, py_gt.
  destruct (as_number v) as [[q|n|]|]; intros H; try reflexivity; discriminate.
Qed.

Lemma py_lt_numeric (v : json) (c : Z) :
  is_numeric v = true -> py_lt v c = Ok (lt v c).
Proof.
  unfold is_numeric, lt, py_lt.
  destruct (as_number v) as [[q|n|]|]; intros H; try reflexivity; discriminate.
Qed.

Lemma formats_fixed_numeric (v : json) :
  formats_fixed v = true -> is_numeric v = true.
Proof. destruct v; simpl; intros H; try reflexivity; discriminate. Qed.

Lemma formats_fixed_ok (v : json) :
  formats_fixed v = true -> format_fixed v = Ok tt.
Proof.
  unfold formats_fixed. destruct (format_fixed v) as [[]|]; intros H;
    [reflexivity | discriminate].
Qed.

(** On a payload whose fields pass [alert_fields_ok], the evaluation does
    not raise and its list is the four groups one after the other. *)
Lemma alerts_of_groups (m : gmap string json) :
  alert_fields_ok m = true ->
  alerts_of (JDict m) =
    Ok (local_aqi_alerts (field m "local_aqi" (JInt 0))
        ++ weather_alerts (field m "weather_aqi" (JInt 0))
        ++ suhu_alerts (field m "suhu" (JInt 0))
        ++ lembab_alerts (field m "lembab" (JInt 0))).
Proof.
  unfold alert_fields_ok. intros H.
  apply andb_prop in H as [H Hl]. apply andb_prop in H as [H Hs].
  apply andb_prop in H as [Ha Hw].
  pose proof (formats_fixed_numeric _ Hs) as Hsn.
  pose proof (formats_fixed_numeric _ Hl) as Hln.
  unfold alerts_of, py_get. fold (field m "local_aqi" (JInt 0)).
  fold (field m "weather_aqi" (JInt 0)). fold (field m "suhu" (JInt 0)).
  fold (field m "lembab" (JInt 0)). cbn [rbind].
  set (a := field m "local_aqi" (JInt 0)) in *.
  set (w := field m "weather_aqi" (JInt 0)) in *.
  set (s := field m "suhu" (JInt 0)) in *.
  set (l := field m "lembab" (JInt 0)) in *.
  unfold local_aqi_alerts, weather_alerts, suhu_alerts, lembab_alerts.
  rewrite !(py_gt_numeric a) by exact Ha.
  rewrite !(py_gt_numeric s) by exact Hsn.
  rewrite !(py_gt_numeric l) by exact Hln.
  rewrite (py_lt_numeric l) by exact Hln.
  rewrite (formats_fixed_ok s Hs), (formats_fixed_ok l Hl).
  destruct (truthy w) eqn:Ht.
  - simpl in Hw. rewrite (py_gt_numeric w) by exact Hw. cbn [rbind andb].
    destruct (gt a 200), (gt a 100), (gt w 100), (gt s 35), (gt l 80), (lt l 30);
      reflexivity.
  - cbn [rbind andb].
    destruct (gt a 200), (gt a 100), (gt s 35), (gt l 80), (lt l 30);
      reflexivity.
Qed.

Lemma local_aqi_alerts_length (v : json) : (length (local_aqi_alerts v) <= 1)%nat.
Proof. unfold local_aqi_alerts. destruct (gt v 200), (gt v 100); simpl; lia. Qed.
Lemma weather_alerts_length (v : json) : (length (weather_alerts v) <= 1)%nat.
Proof. unfold weather_alerts. destruct (truthy v && gt v 100); simpl; lia. Qed.
Lemma suhu_alerts_length (v : json) : (length (suhu_alerts v) <= 1)%nat.
Proof. unfold suhu_alerts. destruct (gt v 35); simpl; lia. Qed.
Lemma lembab_alerts_length (v : json) : (length (lembab_alerts v) <= 1)%nat.
Proof. unfold lembab_alerts. destruct (gt v 80), (lt v 30); simpl; lia. Qed.

(** Whatever the payload, an evaluation that completes has listed at most
    four alerts. *)
Lemma alerts_of_at_most_four (data : json) (al : list alert) :
  alerts_of data = Ok al -> (length al <= 4)%nat.
Proof.
  unfold alerts_of, py_get. destruct data; try discriminate.
  cbn [rbind].
  set (a := match m !! "local_aqi" with Some v => v | None => JInt 0 end).
  set (w := match m !! "weather_aqi" with Some v => v | None => JInt 0 end).
  set (s := match m !! "suhu" with Some v => v | None => JInt 0 end).
  set (l := match m !! "lembab" with Some v => v | None => JInt 0 end).
  destruct (py_gt a 200) as [[]|]; cbn [rbind]; try discriminate;
    [| destruct (py_gt a 100) as [[]|]; cbn [rbind]; try discriminate ];
    (destruct (truthy w);
      [ destruct (py_gt w 100) as [[]|]; cbn [rbind]; try discriminate | ]);
    (destruct (py_gt s 35) as [[]|]; cbn [rbind]; try discriminate;
      [ destruct (format_fixed s) as [[]|]; cbn [rbind]; try discriminate | ]);
    (destruct (py_gt l 80) as [[]|]; cbn [rbind]; try discriminate;
      [ destruct (format_fixed l) as [[]|]; cbn [rbind]; try discriminate
      | destruct (py_lt l 30) as [[]|]; cbn [rbind]; try discriminate;
        [ destruct (format_fixed l) as [[]|]; cbn [rbind]; try discriminate | ] ]);
    intros [= <-]; simpl; lia.
Qed.

(** C6. The alert evaluator on the two worked examples: the reading
    [{local_aqi: 250, suhu: 36, lembab: 85}] leaves exactly three alerts in
    the session, in the order danger (AQI), warning (temperature), warning
    (humidity), and [{local_aqi: 40, suhu: 22, lembab: 50}] leaves none;
    neither evaluation raises. *)
Theorem check_alerts_worked_examples (mc : machine) :
  (snd (check_alerts example_hot_humid_polluted mc) = Ok tt /\
   alerts (ss (fst (check_alerts example_hot_humid_polluted mc))) =
     [("danger", AQI_BERBAHAYA (JInt 250));
      ("warning", Suhu_tinggi (JInt 36));
      ("warning", Kelembaban_tinggi (JInt 85))]) /\
  (snd (check_alerts example_comfortable mc) = Ok tt /\
   alerts (ss (fst (check_alerts example_comfortable mc))) = []).
Proof.
  assert (H1 : alerts_of example_hot_humid_polluted =
               Ok [("danger", AQI_BERBAHAYA (JInt 250));
                   ("warning", Suhu_tinggi (JInt 36));
                   ("warning", Kelembaban_tinggi (JInt 85))])
    by (vm_compute; reflexivity).
  assert (H2 : alerts_of example_comfortable = Ok [])
    by (vm_compute; reflexivity).
  unfold check_alerts, bind, lift. rewrite H1, H2. simpl. auto.
Qed.

(** C5, as the code has it.  On every reading whose fields the evaluation
    accepts, the alert list is made of four groups in the fixed order local
    AQI, external weather AQI, temperature, humidity; each group is decided
    by its own field alone and contributes at most one alert (danger or
    warning for the local AQI; high or low for the humidity), so a reading
    yields from 0 to 4 alerts. *)
Theorem check_alerts_rule_groups (m : gmap string json) :
  alert_fields_ok m = true ->
  exists a w t h : list alert,
    alerts_of (JDict m) = Ok (a ++ w ++ t ++ h) /\
    a = local_aqi_alerts (field m "local_aqi" (JInt 0)) /\
    w = weather_alerts (field m "weather_aqi" (JInt 0)) /\
    t = suhu_alerts (field m "suhu" (JInt 0)) /\
    h = lembab_alerts (field m "lembab" (JInt 0)) /\
    (length a <= 1 /\ length w <= 1 /\ length t <= 1 /\ length h <= 1)%nat /\
    (length (a ++ w ++ t ++ h) <= 4)%nat.
Proof.
  intros Hok. eexists _, _, _, _.
  split; [apply (alerts_of_groups m Hok)|].
  repeat (split; [reflexivity|]).
  pose proof (local_aqi_alerts_length (field m "local_aqi" (JInt 0))).
  pose proof (weather_alerts_length (field m "weather_aqi" (JInt 0))).
  pose proof (suhu_alerts_length (field m "suhu" (JInt 0))).
  pose proof (lembab_alerts_length (field m "lembab" (JInt 0))).
  rewrite !length_app. lia.
Qed.

Lemma check_alerts_rule_groups_witness :
  exists a w t h : list alert,
    alerts_of example_every_group = Ok (a ++ w ++ t ++ h) /\
    a = [("danger", AQI_BERBAHAYA (JInt 250))] /\
    w = [("info", AccuWeather_AQI (JInt 150))] /\
    t = [("warning", Suhu_tinggi (JInt 36))] /\
    h = [("warning", Kelembaban_tinggi (JInt 85))].
Proof.
  assert (Hok : alert_fields_ok example_every_group_fields = true)
    by (vm_compute; reflexivity).
  destruct (check_alerts_rule_groups example_every_group_fields Hok)
    as (a & w & t & h & Hal & Ha & Hw & Ht & Hh & _).
  exists a, w, t, h. split; [exact Hal|].
  subst. repeat split; vm_compute; reflexivity.
Defined.

(** C5 as stated fails: with a rule of every group applying, the reading
    yields four alerts, and no reading at all yields five. *)
Lemma five_alerts_never :
  alerts_of example_every_group =
    Ok [("danger", AQI_BERBAHAYA (JInt 250));
        ("info", AccuWeather_AQI (JInt 150));
        ("warning", Suhu_tinggi (JInt 36));
        ("warning", Kelembaban_tinggi (JInt 85))] /\
  (forall (data : json) (al : list alert),
      alerts_of data = Ok al -> (length al <= 4)%nat) /\
  ~ (exists (data : json) (al : list alert),
        alerts_of data = Ok al /\ length al = 5%nat).
Proof.
  split; [vm_compute; reflexivity|].
  split; [exact alerts_of_at_most_four|].
  intros (data & al & Hal & Hlen).
  apply alerts_of_at_most_four in Hal. lia.
Qed.

(** Every count from 0 to 4 is reached. *)
Lemma alert_counts_attained (n : nat) :
  (n <= 4)%nat ->
  exists (m : gmap string json) (al : list alert),
    alert_fields_ok m = true /\ alerts_of (JDict m) = Ok al /\ length al = n.
Proof.
  intros Hn.
  destruct n as [|[|[|[|[|n]]]]]; [ | | | | | lia].
  - exists (list_to_map [("lembab", JInt 50)]), []. vm_compute. auto.
  - exists ∅, [("warning", Kelembaban_rendah (JInt 0))]. vm_compute. auto.
  - exists (list_to_map [("suhu", JInt 36)]),
      [("warning", Suhu_tinggi (JInt 36)); ("warning", Kelembaban_rendah (JInt 0))].
    vm_compute. auto.
  - exists (list_to_map [("local_aqi", JInt 250); ("suhu", JInt 36); ("lembab", JInt 85)]),
      [("danger", AQI_BERBAHAYA (JInt 250)); ("warning", Suhu_tinggi (JInt 36));
       ("warning", Kelembaban_tinggi (JInt 85))].
    vm_compute. auto.
  - exists (list_to_map [("local_aqi", JInt 250); ("weather_aqi", JInt 150);
                         ("suhu", JInt 36); ("lembab", JInt 85)]),
      [("danger", AQI_BERBAHAYA (JInt 250)); ("info", AccuWeather_AQI (JInt 150));
       ("warning", Suhu_tinggi (JInt 36)); ("warning", Kelembaban_tinggi (JInt 85))].
    vm_compute. auto.
Qed.

Lemma alert_counts_attained_witness :
  exists (m : gmap string json) (al : list alert),
    alert_fields_ok m = true /\ alerts_of (JDict m) = Ok al /\ length al = 4%nat.
Proof. apply (alert_counts_attained 4). lia. Defined.

(** C10, as the code has it.  For every payload without a top-level
    [lembab] key on which the alert evaluation runs to its end (see
    [alert_fields_ok]), the evaluation reads the humidity as the default 0,
    whatever a nested [environment] object holds, and the last alert of the
    list is the low-humidity warning; at most three alerts come before. *)
Theorem missing_lembab_low_humidity (m : gmap string json) :
  m !! "lembab" = None ->
  alert_fields_ok m = true ->
  exists earlier : list alert,
    alerts_of (JDict m) =
      Ok (earlier ++ [("warning", Kelembaban_rendah (JInt 0))]) /\
    (length earlier <= 3)%nat.
Proof.
  intros Hl Hok.
  exists (local_aqi_alerts (field m "local_aqi" (JInt 0))
          ++ weather_alerts (field m "weather_aqi" (JInt 0))
          ++ suhu_alerts (field m "suhu" (JInt 0))).
  split.
  - rewrite (alerts_of_groups m Hok).
    unfold field at 4. rewrite Hl.
    change (lembab_alerts (JInt 0)) with [("warning", Kelembaban_rendah (JInt 0))].
    rewrite <- !app_assoc. reflexivity.
  - pose proof (local_aqi_alerts_length (field m "local_aqi" (JInt 0))).
    pose proof (weather_alerts_length (field m "weather_aqi" (JInt 0))).
    pose proof (suhu_alerts_length (field m "suhu" (JInt 0))).
    rewrite !length_app. lia.
Qed.

Lemma missing_lembab_low_humidity_witness :
  extract_sensor_values (JDict example_legacy_fields)
    = Ok (JInt 25, JInt 50, JInt 0, JInt 40, JStr "N/A") /\
  exists earlier : list alert,
    alerts_of (JDict example_legacy_fields) =
      Ok (earlier ++ [("warning", Kelembaban_rendah (JInt 0))]) /\
    (length earlier <= 3)%nat.
Proof.
  split.
  - vm_compute. reflexivity.
  - assert (Hl : example_legacy_fields !! "lembab" = None)
      by (vm_compute; reflexivity).
    assert (Hok : alert_fields_ok example_legacy_fields = true)
      by (vm_compute; reflexivity).
    exact (missing_lembab_low_humidity example_legacy_fields Hl Hok).
Defined.

(** C10 as stated fails: a payload without [lembab] whose [weather_aqi] is
    the text ["N/A"] makes the evaluation raise [TypeError] at
    [weather_aqi > 100]; no alert is emitted, and the ingestion loop, which
    catches the exception, keeps the previous alert list and does not count
    the message as received. *)
Lemma missing_lembab_may_raise :
  example_weather_text_fields !! "lembab" = None /\
  alerts_of (JDict example_weather_text_fields) = Raise TypeError /\
  (let r := process_incoming_data rt_no_model
              [(0, {| ts := 0; payload := JDict example_weather_text_fields |})]
              0 initial_machine in
   snd r = Ok false /\ alerts (ss (fst r)) = []).
Proof. vm_compute. auto. Qed.

(** ** Tolerant extraction *)

Lemma extract_flat (P : gmap string json) :
  P !! "environment" = None ->
  extract_sensor_values (JDict P) =
    Ok (field P "suhu" (JInt 0), field P "lembab" (JInt 0),
        field P "adc_raw" (JInt 0), field P "local_aqi" (JInt 0),
        field P "aqi_category" (JStr "N/A")).
Proof.
  intros He. unfold extract_sensor_values, py_get, py_in, field.
  cbn [rbind]. rewrite He. reflexivity.
Qed.

Lemma legacy_environment_temp (P : gmap string json) :
  legacy_environment P !! "temp" = P !! "suhu".
Proof.
  unfold legacy_environment.
  destruct (P !! "suhu"), (P !! "lembab"); simplify_map_eq; reflexivity.
Qed.

Lemma legacy_environment_humid (P : gmap string json) :
  legacy_environment P !! "humid" = P !! "lembab".
Proof.
  unfold legacy_environment.
  destruct (P !! "suhu"), (P !! "lembab"); simplify_map_eq; reflexivity.
Qed.

(** Format-tolerance round trip: a flat payload and its legacy-wrapped form
    give the same temperature and humidity, namely the flat fields, with 0
    for a field the payload does not have. *)
Lemma extract_legacy_round_trip (P : gmap string json) :
  P !! "environment" = None ->
  temperature_humidity (JDict (legacy_wrap P)) = temperature_humidity (JDict P)
  /\ temperature_humidity (JDict P)
     = Some (field P "suhu" (JInt 0), field P "lembab" (JInt 0)).
Proof.
  intros He.
  assert (Hflat : temperature_humidity (JDict P)
                  = Some (field P "suhu" (JInt 0), field P "lembab" (JInt 0))).
  { unfold temperature_humidity. rewrite (extract_flat P He). reflexivity. }
  split; [|exact Hflat]. rewrite Hflat.
  unfold temperature_humidity, extract_sensor_values, py_get, py_in, legacy_wrap.
  cbn [rbind]. rewrite lookup_insert_eq. cbn [rbind].
  rewrite legacy_environment_temp, legacy_environment_humid.
  rewrite !lookup_insert_ne by discriminate.
  rewrite lookup_delete_eq.
  rewrite lookup_delete_ne by discriminate. rewrite lookup_delete_eq.
  unfold field. destruct (P !! "suhu"), (P !! "lembab"); reflexivity.
Qed.

Lemma extract_legacy_round_trip_witness :
  temperature_humidity (JDict (legacy_wrap
    (list_to_map [("suhu", JInt 28); ("lembab", JInt 60)])))
  = Some (JInt 28, JInt 60).
Proof.
  pose (P := (list_to_map [("suhu", JInt 28); ("lembab", JInt 60)]
              : gmap string json)).
  assert (He : P !! "environment" = None) by (vm_compute; reflexivity).
  destruct (extract_legacy_round_trip P He) as [H1 H2].
  change (temperature_humidity (JDict (legacy_wrap P)) = Some (JInt 28, JInt 60)).
  rewrite H1, H2. vm_compute. reflexivity.
Defined.

(** C7 on the code: when a payload carries both the flat names and the
    nested [environment] object, the nested values win; the flat [suhu] 28
    and [lembab] 60 are dropped for [temp] 30 and [humid] 70. *)
Theorem extract_nested_overrides_flat :
  extract_sensor_values example_both_shapes
  = Ok (JInt 30, JInt 70, JInt 0, JInt 0, JStr "N/A").
Proof. vm_compute. reflexivity. Qed.

(** ** Invariants of monadic code *)

Section Invariants.

Variable I : machine -> Prop.

Lemma keeps_ret {A : Type} (a : A) : keeps I (ret a).
Proof. intros m Hm. exact Hm. Qed.

Lemma keeps_raise {A : Type} (e : exn) : keeps I (@raise A e).
Proof. intros m Hm. exact Hm. Qed.

Lemma keeps_lift {A : Type} (r : result A) : keeps I (lift r).
Proof. intros m Hm. exact Hm. Qed.

Lemma keeps_bind {A B : Type} (c : M A) (k : A -> M B) :
  keeps I c -> (forall a, keeps I (k a)) -> keeps I (bind c k).
Proof.
  intros Hc Hk m Hm. unfold bind. specialize (Hc m Hm).
  destruct (c m) as [m' [a|e]]; simpl in *; [apply Hk|]; exact Hc.
Qed.

Lemma keeps_try_except {A : Type} (c : M A) (h : exn -> M A) :
  keeps I c -> (forall e, keeps I (h e)) -> keeps I (try_except c h).
Proof.
  intros Hc Hh m Hm. unfold try_except. specialize (Hc m Hm).
  destruct (c m) as [m' [a|e]]; simpl in *; [|apply Hh]; exact Hc.
Qed.

Lemma keeps_modify_session (f : session -> session) :
  (forall m, I m ->
     I {| ss := f (ss m); outbox := outbox m;
          data_received := data_received m |}) ->
  keeps I (modify_session f).
Proof. intros Hf m Hm. apply Hf, Hm. Qed.

End Invariants.

(** ** History window *)

Lemma deque_append_length {A : Type} (n : nat) (x : A) (d : list A) :
  (0 < n)%nat ->
  length (deque_append n x d)
  = if (length d <? n)%nat then S (length d) else length d.
Proof.
  intros Hn. unfold deque_append.
  destruct (length d <? n)%nat eqn:Hlt.
  - rewrite length_app. simpl. lia.
  - apply Nat.ltb_ge in Hlt. destruct d as [|y d]; simpl in *; [lia|].
    rewrite length_app. simpl. lia.
Qed.

Lemma deque_append_full {A : Type} (n : nat) (x : A) (d : list A) :
  length d = n -> deque_append n x d = tail d ++ [x].
Proof.
  intros Hlen. unfold deque_append.
  assert (Hlt : (length d <? n)%nat = false) by (apply Nat.ltb_ge; lia).
  rewrite Hlt. reflexivity.
Qed.

Lemma append_history_ok (now : Z) (suhu lembab aqi : json) (s : session) :
  history_ok (data_history s) ->
  history_ok (data_history (append_history now suhu lembab aqi s)).
Proof.
  unfold history_ok, append_history. simpl.
  intros (Hle & Hs & Hl & Ha).
  rewrite !deque_append_length by lia. rewrite Hs, Hl, Ha.
  destruct (length (h_time (data_history s)) <? 100)%nat eqn:Hlt.
  - apply Nat.ltb_lt in Hlt. repeat split; lia.
  - repeat split; lia.
Qed.

Lemma keeps_history_emit (msg : mqtt_message) :
  keeps machine_history_ok (emit msg).
Proof. intros m Hm. exact Hm. Qed.

Lemma keeps_history_publish (rt : runtime) (msg : mqtt_message) :
  keeps machine_history_ok (publish rt msg).
Proof.
  unfold publish. destruct (publish_error rt msg);
    [apply keeps_raise | apply keeps_history_emit].
Qed.

Lemma keeps_history_send (rt : runtime) (st : string) (c : option pyfloat) :
  keeps machine_history_ok (send_ml_prediction_to_esp32 rt st c).
Proof.
  unfold send_ml_prediction_to_esp32.
  apply keeps_try_except; [|intros; apply keeps_ret].
  apply keeps_bind; [apply keeps_lift|]. intros c'.
  apply keeps_bind; [apply keeps_history_publish|]. intros _.
  apply keeps_bind; [apply keeps_lift | intros; apply keeps_ret].
Qed.

Lemma keeps_history_inference (rt : runtime) (suhu lembab aqi : json) :
  keeps machine_history_ok (inference_step rt suhu lembab aqi).
Proof.
  unfold inference_step. destruct (ml_model rt) as [model|]; [|apply keeps_ret].
  apply keeps_try_except.
  - apply keeps_bind; [apply keeps_lift|]. intros [pred_text confidence].
    apply keeps_bind; [apply keeps_modify_session; intros m Hm; exact Hm|].
    intros _. apply keeps_bind; [apply keeps_history_send|].
    intros _. apply keeps_lift.
  - intros e. apply keeps_modify_session. intros m Hm. exact Hm.
Qed.

Lemma keeps_history_check_alerts (data : json) :
  keeps machine_history_ok (check_alerts data).
Proof.
  unfold check_alerts. apply keeps_bind; [apply keeps_lift|].
  intros al. apply keeps_modify_session. intros m Hm. exact Hm.
Qed.

Lemma keeps_history_process_item (rt : runtime) (now : Z) (it : item) :
  keeps machine_history_ok (process_item rt now it).
Proof.
  unfold process_item.
  apply keeps_bind; [apply keeps_modify_session; intros m Hm; exact Hm|].
  intros _.
  apply keeps_bind; [apply keeps_modify_session; intros m Hm; exact Hm|].
  intros _. apply keeps_bind; [apply keeps_lift|].
  intros [[[[suhu lembab] adc_raw] local_aqi] aqi_category].
  apply keeps_bind.
  { apply keeps_modify_session. intros m Hm.
    unfold machine_history_ok in *. simpl. apply append_history_ok, Hm. }
  intros _. apply keeps_bind; [apply keeps_lift|].
  intros rssi. apply keeps_bind; [apply keeps_lift|].
  intros _. apply keeps_bind; [apply keeps_history_inference|].
  intros _. apply keeps_bind; [apply keeps_history_check_alerts|].
  intros _. apply keeps_bind; [intros m Hm; exact Hm|].
  intros _. apply keeps_modify_session. intros m Hm. exact Hm.
Qed.

Lemma keeps_history_drain (rt : runtime) (q : list (Z * item)) :
  keeps machine_history_ok (drain rt q).
Proof.
  induction q as [|[now it] q IH]; simpl; [apply keeps_ret|].
  apply keeps_bind; [|intros _; exact IH].
  apply keeps_try_except; [apply keeps_history_process_item|].
  intros e. apply keeps_ret.
Qed.

Lemma keeps_history_check_staleness (now : Z) :
  keeps machine_history_ok (check_staleness now).
Proof.
  intros m Hm. unfold check_staleness.
  destruct (last_update (ss m)); [exact Hm|].
  destruct (30 * US_PER_SECOND <? _); [exact Hm|].
  destruct (data_received m); exact Hm.
Qed.

Lemma keeps_history_process_incoming_data (rt : runtime)
    (q : list (Z * item)) (now : Z) :
  keeps machine_history_ok (process_incoming_data rt q now).
Proof.
  unfold process_incoming_data.
  apply keeps_bind; [intros m Hm; exact Hm|]. intros _.
  apply keeps_bind; [apply keeps_history_drain|]. intros _.
  apply keeps_bind; [apply keeps_history_check_staleness|]. intros _.
  intros m Hm. exact Hm.
Qed.

Lemma keeps_history_process_device_responses (q responses : list item) :
  keeps machine_history_ok (process_device_responses q responses).
Proof.
  revert responses. induction q as [|it q IH]; intros responses; simpl;
    [apply keeps_ret|].
  apply keeps_bind; [apply keeps_modify_session; intros m Hm; exact Hm|].
  intros _. apply IH.
Qed.

Lemma run_tick_history_ok (rt : runtime) (tk : tick) (m : machine) :
  machine_history_ok m -> machine_history_ok (run_tick rt tk m).
Proof.
  intros Hm. unfold run_tick.
  apply keeps_history_process_device_responses.
  apply keeps_history_process_incoming_data. exact Hm.
Qed.

Lemma run_ticks_history_ok (rt : runtime) (tks : list tick) (m : machine) :
  machine_history_ok m -> machine_history_ok (run_ticks rt tks m).
Proof.
  revert m. induction tks as [|tk tks IH]; intros m Hm; simpl; [exact Hm|].
  apply IH, run_tick_history_ok, Hm.
Qed.

(** C2. The history window: after any sequence of refreshes of the page,
    started from the initial session and whatever the queues held, each of
    the four series has at most 100 entries and the four have the same
    length; and the four appends of the ingestion loop, made on a full
    window, drop the oldest entry of every series and put the new one
    last. *)
Theorem history_window_invariant (rt : runtime) (tks : list tick) :
  history_ok (data_history (ss (run_ticks rt tks initial_machine)))
  /\ (forall (s : session) (now : Z) (suhu lembab aqi : json),
        history_ok (data_history s) ->
        length (h_time (data_history s)) = 100%nat ->
        let h := data_history s in
        let h' := data_history (append_history now suhu lembab aqi s) in
        h_time h' = tail (h_time h) ++ [now]
        /\ h_suhu h' = tail (h_suhu h) ++ [suhu]
        /\ h_lembab h' = tail (h_lembab h) ++ [lembab]
        /\ h_aqi h' = tail (h_aqi h) ++ [aqi]
        /\ history_ok h').
Proof.
  split.
  - apply run_ticks_history_ok. unfold machine_history_ok, history_ok.
    simpl. repeat split; lia.
  - intros s now suhu lembab aqi Hok Hfull h h'.
    pose proof Hok as (_ & Hs & Hl & Ha).
    subst h h'. unfold append_history. cbn [data_history set_data_history
      h_time h_suhu h_lembab h_aqi].
    rewrite !deque_append_full by congruence.
    assert (Htail : forall (A : Type) (d : list A) (x : A),
               length d = 100%nat -> length (tail d ++ [x]) = 100%nat).
    { intros A d x Hd. destruct d; simpl in *; [lia|].
      rewrite length_app. simpl. lia. }
    repeat split; cbn [h_time h_suhu h_lembab h_aqi];
      rewrite ?Htail by congruence; lia.
Qed.

Lemma history_window_invariant_witness :
  length (h_suhu (data_history
    (ss (run_ticks rt_no_model [tick_of_items 100] initial_machine)))) = 100%nat
  /\ h_suhu (data_history
       (append_history 100 (JInt 100) (JInt 0) (JInt 0)
          (ss (run_ticks rt_no_model [tick_of_items 100] initial_machine))))
     = map (fun i => JInt (Z.of_nat i)) (seq 1 100).
Proof.
  destruct (history_window_invariant rt_no_model [tick_of_items 100])
    as [Hok Hevict].
  assert (Hfull : length (h_time (data_history
            (ss (run_ticks rt_no_model [tick_of_items 100] initial_machine))))
          = 100%nat) by (vm_compute; reflexivity).
  destruct (Hevict _ 100 (JInt 100) (JInt 0) (JInt 0) Hok Hfull)
    as (_ & Hsuhu & _).
  split.
  - destruct Hok as (_ & Hs & _). rewrite Hs. exact Hfull.
  - rewrite Hsuhu. vm_compute. reflexivity.
Defined.

(** ** Staleness rule *)

(** The rule as [check_staleness] computes it: the elapsed time is the
    time of day of the check minus the stamp. *)
Lemma staleness_rule (now hms : Z) (m : machine) :
  last_update (ss m) = At hms ->
  let elapsed := time_of_day now - hms * US_PER_SECOND in
  let m' := fst (check_staleness now m) in
  (30 * US_PER_SECOND < elapsed -> mqtt_connected (ss m') = false)
  /\ (elapsed <= 30 * US_PER_SECOND -> data_received m = true ->
      mqtt_connected (ss m') = true)
  /\ (elapsed <= 30 * US_PER_SECOND -> data_received m = false ->
      mqtt_connected (ss m') = mqtt_connected (ss m)).
Proof.
  intros Hlu elapsed m'. subst m'. unfold check_staleness. rewrite Hlu.
  fold elapsed.
  destruct (30 * US_PER_SECOND <? elapsed) eqn:Hcmp.
  - apply Z.ltb_lt in Hcmp. simpl. repeat split; intros; try reflexivity; lia.
  - apply Z.ltb_ge in Hcmp.
    destruct (data_received m) eqn:Hdr; simpl;
      repeat split; intros; try reflexivity; try lia; discriminate.
Qed.

Lemma staleness_rule_witness :
  mqtt_connected (ss (fst (check_staleness (instant 0 12 0 31)
    {| ss := set_last_update (At (strftime_HMS (instant 0 12 0 0)))
               (set_mqtt_connected true initial_session);
       outbox := []; data_received := false |}))) = false.
Proof.
  apply (staleness_rule (instant 0 12 0 31) (strftime_HMS (instant 0 12 0 0))).
  - reflexivity.
  - vm_compute. reflexivity.
Defined.

(** Without a stamp ([last_update] is ["Never"]) the flag is left alone. *)
Lemma staleness_never (now : Z) (m : machine) :
  last_update (ss m) = Never -> fst (check_staleness now m) = m.
Proof. intros Hlu. unfold check_staleness. rewrite Hlu. reflexivity. Qed.

(** C3 on the code.  A reading is received at 23:59:50 and processed by the
    refresh of 23:59:51; the next refresh that matters comes 31 seconds
    after the reception, at 00:00:21 of the following day, and finds no
    data.  The stamp keeps no date, so the rule computes a negative
    difference and the flag stays connected.  The same scenario started
    at 12:00:00 reports disconnected. *)
Theorem staleness_wraps_at_midnight :
  instant 1 0 0 21 - instant 0 23 59 50 = 31 * US_PER_SECOND
  /\ mqtt_connected (ss (run_ticks rt_no_model
       [tick_with_reading (instant 0 23 59 51);
        tick_without_data (instant 1 0 0 21)] initial_machine)) = true
  /\ instant 0 12 0 31 - instant 0 12 0 0 = 31 * US_PER_SECOND
  /\ mqtt_connected (ss (run_ticks rt_no_model
       [tick_with_reading (instant 0 12 0 1);
        tick_without_data (instant 0 12 0 31)] initial_machine)) = false.
Proof. vm_compute. auto. Qed.

(** ** What the ingestion loop publishes *)

(** C4 on the code.  With a model loaded, one refresh that processes the
    reading of the end-to-end scenario stores the inference result and hands
    the publisher exactly one message, the [set_status] command on the
    command topic: nothing goes to the prediction-broadcast topic. *)
Theorem ingestion_publishes_command_only :
  let m := run_ticks rt_with_model [tick_with_reading (instant 0 12 0 1)]
             initial_machine in
  status (ml_prediction (ss m)) = "Aman"
  /\ outbox m =
       [{| topic := TOPIC_COMMAND;
           body := JDict (list_to_map
             [("cmd", JStr "set_status"); ("status", JStr "Aman");
              ("confidence", JInt 90)]) |}]
  /\ List.filter (fun msg => String.eqb (topic msg) TOPIC_PREDICTION) (outbox m) = [].
Proof. vm_compute. auto. Qed.

Lemma keeps_topic_publish (rt : runtime) (msg : mqtt_message) :
  topic msg = TOPIC_COMMAND -> keeps on_command_topic (publish rt msg).
Proof.
  intros Ht. unfold publish. destruct (publish_error rt msg);
    [apply keeps_raise|].
  intros m Hm. unfold on_command_topic, emit in *. simpl.
  apply Forall_app. split; [exact Hm|]. constructor; [exact Ht|constructor].
Qed.

Lemma keeps_topic_inference (rt : runtime) (suhu lembab aqi : json) :
  keeps on_command_topic (inference_step rt suhu lembab aqi).
Proof.
  unfold inference_step. destruct (ml_model rt) as [model|]; [|apply keeps_ret].
  apply keeps_try_except.
  - apply keeps_bind; [apply keeps_lift|]. intros [pred_text confidence].
    apply keeps_bind; [apply keeps_modify_session; intros m Hm; exact Hm|].
    intros _. apply keeps_bind.
    + unfold send_ml_prediction_to_esp32.
      apply keeps_try_except; [|intros; apply keeps_ret].
      apply keeps_bind; [apply keeps_lift|]. intros c'.
      apply keeps_bind; [apply keeps_topic_publish; reflexivity|]. intros _.
      apply keeps_bind; [apply keeps_lift | intros; apply keeps_ret].
    + intros _. apply keeps_lift.
  - intros e. apply keeps_modify_session. intros m Hm. exact Hm.
Qed.

Lemma keeps_topic_process_incoming_data (rt : runtime)
    (q : list (Z * item)) (now : Z) :
  keeps on_command_topic (process_incoming_data rt q now).
Proof.
  unfold process_incoming_data.
  apply keeps_bind; [intros m Hm; exact Hm|]. intros _.
  apply keeps_bind.
  { induction q as [|[t it] q IH]; simpl; [apply keeps_ret|].
    apply keeps_bind; [|intros _; exact IH].
    apply keeps_try_except; [|intros e; apply keeps_ret].
    unfold process_item.
    apply keeps_bind; [apply keeps_modify_session; intros m Hm; exact Hm|].
    intros _.
    apply keeps_bind; [apply keeps_modify_session; intros m Hm; exact Hm|].
    intros _. apply keeps_bind; [apply keeps_lift|].
    intros [[[[suhu lembab] adc_raw] local_aqi] aqi_category].
    apply keeps_bind; [apply keeps_modify_session; intros m Hm; exact Hm|].
    intros _. apply keeps_bind; [apply keeps_lift|].
    intros rssi. apply keeps_bind; [apply keeps_lift|].
    intros _. apply keeps_bind; [apply keeps_topic_inference|].
    intros _. apply keeps_bind.
    { unfold check_alerts. apply keeps_bind; [apply keeps_lift|].
      intros al. apply keeps_modify_session. intros m Hm. exact Hm. }
    intros _. apply keeps_bind; [intros m Hm; exact Hm|].
    intros _. apply keeps_modify_session. intros m Hm. exact Hm. }
  intros _. apply keeps_bind.
  { intros m Hm. unfold check_staleness.
    destruct (last_update (ss m)); [exact Hm|].
    destruct (30 * US_PER_SECOND <? _); [exact Hm|].
    destruct (data_received m); exact Hm. }
  intros _ m Hm. exact Hm.
Qed.

(** Whatever the model, the queues and the number of refreshes, every
    message the pipeline hands to the publisher is on the command topic:
    the ingestion loop never calls [publish_prediction]. *)
Lemma ingestion_never_broadcasts (rt : runtime) (tks : list tick) :
  Forall (fun msg => topic msg = TOPIC_COMMAND)
    (outbox (run_ticks rt tks initial_machine)).
Proof.
  change (on_command_topic (run_ticks rt tks initial_machine)).
  assert (H0 : on_command_topic initial_machine) by constructor.
  revert H0. generalize initial_machine.
  induction tks as [|tk tks IH]; intros m Hm; simpl; [exact Hm|].
  apply IH. unfold run_tick.
  assert (Hr : forall q rs, keeps on_command_topic (process_device_responses q rs)).
  { induction q as [|it q IHq]; intros rs; simpl; [apply keeps_ret|].
    apply keeps_bind; [apply keeps_modify_session; intros m0 Hm0; exact Hm0|].
    intros _. apply IHq. }
  apply Hr. apply keeps_topic_process_incoming_data. exact Hm.
Qed.

(** ** Inference step *)

Lemma text_map_lookup (s : string) :
  text_map !! s =
    if String.eqb s "AMAN" then Some "Aman"
    else if String.eqb s "HATI-HATI" then Some "Waspada"
    else if String.eqb s "BAHAYA" then Some "Bahaya"
    else None.
Proof.
  unfold text_map. rewrite !list_to_map_cons, list_to_map_nil.
  destruct (String.eqb_spec s "AMAN") as [->|H1]; [reflexivity|].
  rewrite lookup_insert_ne by congruence.
  destruct (String.eqb_spec s "HATI-HATI") as [->|H2]; [reflexivity|].
  rewrite lookup_insert_ne by congruence.
  destruct (String.eqb_spec s "BAHAYA") as [->|H3]; [reflexivity|].
  rewrite lookup_insert_ne by congruence.
  apply lookup_empty.
Qed.

Lemma text_map_get_display (s : string) : text_map_get s = display_table s.
Proof.
  unfold text_map_get, display_table. rewrite text_map_lookup.
  destruct (String.eqb s "AMAN"); [reflexivity|].
  destruct (String.eqb s "HATI-HATI"); [reflexivity|].
  destruct (String.eqb s "BAHAYA"); reflexivity.
Qed.

Lemma label_map_lookup (z : Z) :
  label_map !! z =
    if z =? 0 then Some "Aman"
    else if z =? 1 then Some "Waspada"
    else if z =? 2 then Some "Bahaya"
    else None.
Proof.
  unfold label_map. rewrite !list_to_map_cons, list_to_map_nil.
  destruct (Z.eqb_spec z 0) as [->|H0]; [reflexivity|].
  rewrite lookup_insert_ne by congruence.
  destruct (Z.eqb_spec z 1) as [->|H1]; [reflexivity|].
  rewrite lookup_insert_ne by congruence.
  destruct (Z.eqb_spec z 2) as [->|H2]; [reflexivity|].
  rewrite lookup_insert_ne by congruence.
  apply lookup_empty.
Qed.

Lemma label_map_get_ordinal (raw : rawclass) :
  label_map_get raw = ordinal_table raw.
Proof.
  destruct raw as [z|s]; [|reflexivity].
  unfold label_map_get, ordinal_table. rewrite label_map_lookup.
  destruct (Z.eqb_spec z 0) as [->|H0]; [reflexivity|].
  destruct (Z.eqb_spec z 1) as [->|H1]; [reflexivity|].
  destruct (Z.eqb_spec z 2) as [->|H2]; [reflexivity|].
  destruct z as [|[p|p|]|p]; try reflexivity; try congruence;
    destruct p; try reflexivity; congruence.
Qed.

Lemma display_table_cases (s : string) :
  In (display_table s) known_labels
  \/ (display_table s = s /\ text_map !! s = None).
Proof.
  rewrite text_map_lookup. unfold display_table, known_labels.
  destruct (String.eqb s "AMAN"); [left; simpl; auto|].
  destruct (String.eqb s "HATI-HATI"); [left; simpl; auto|].
  destruct (String.eqb s "BAHAYA"); [left; simpl; auto|].
  right. split; reflexivity.
Qed.

Lemma ordinal_table_known (raw : rawclass) :
  In (ordinal_table raw) known_labels.
Proof.
  unfold known_labels.
  destruct raw as [[|[p|p|]|p]|s]; simpl; auto;
    destruct p; simpl; auto 6.
Qed.

Lemma fold_max_is_maximum (rest : list Q) (p top : Q) (seen : list Q) :
  fold_left (fun acc x => if Qle_bool acc x then x else acc) rest p = top ->
  (forall x, In x seen -> (x <= p)%Q) ->
  In p seen ->
  In top (seen ++ rest) /\ forall x, In x (seen ++ rest) -> (x <= top)%Q.
Proof.
  revert p seen. induction rest as [|y rest IH]; intros p seen Hfold Hle Hin.
  - simpl in Hfold. subst top. rewrite app_nil_r. split; assumption.
  - simpl in Hfold.
    replace (seen ++ y :: rest) with ((seen ++ [y]) ++ rest)
      by (rewrite <- app_assoc; reflexivity).
    destruct (Qle_bool p y) eqn:Hpy.
    + apply Qle_bool_iff in Hpy.
      apply (IH y (seen ++ [y])); auto.
      * intros x Hx. apply in_app_or in Hx as [Hx|[<-|[]]];
          [eapply Qle_trans; [apply Hle, Hx|exact Hpy] | apply Qle_refl].
      * apply in_or_app. right. simpl. auto.
    + assert (Hyp : (y <= p)%Q).
      { apply Qlt_le_weak, Qnot_le_lt. intros Hc.
        apply Qle_bool_iff in Hc. congruence. }
      apply (IH p (seen ++ [y])); auto.
      * intros x Hx. apply in_app_or in Hx as [Hx|[<-|[]]];
          [apply Hle, Hx | exact Hyp].
      * apply in_or_app. left. exact Hin.
Qed.

(** [np_max] returns a largest entry, and raises only on an empty row. *)
Lemma np_max_is_maximum (proba : list Q) (top : Q) :
  np_max proba = Ok top -> is_maximum top proba.
Proof.
  destruct proba as [|p rest]; [discriminate|]. simpl. intros [= Hfold].
  apply (fold_max_is_maximum rest p top [p]); auto.
  - intros x [<-|[]]. apply Qle_refl.
  - simpl. auto.
Qed.

Lemma np_max_nonempty (p : Q) (rest : list Q) :
  exists top, np_max (p :: rest) = Ok top.
Proof. eexists. reflexivity. Qed.

(** ** Rounding to a double *)

From Stdlib Require Import Qpower Qabs Lqa.
Open Scope Z_scope.

(** The nearest integer is within one half. *)
Lemma round_half_even_near (q : Q) :
  (q - (1 # 2) <= inject_Z (round_half_even q)
   /\ inject_Z (round_half_even q) <= q + (1 # 2))%Q.
Proof.
  unfold round_half_even.
  pose proof (Qfloor_le q) as Hlo. pose proof (Qlt_floor q) as Hhi.
  rewrite inject_Z_plus in Hhi.
  destruct (Qcompare_spec (q - inject_Z (Qfloor q)) (1 # 2)) as [He|Hl|Hg].
  - destruct (Z.even (Qfloor q)); [|rewrite inject_Z_plus];
      unfold inject_Z in *; lra.
  - unfold inject_Z in *; lra.
  - rewrite inject_Z_plus. unfold inject_Z in *; lra.
Qed.

(** Rounding never crosses an integer. *)
Lemma round_half_even_le (q : Q) (c : Z) :
  (q <= inject_Z c)%Q -> round_half_even q <= c.
Proof.
  intros Hq. unfold round_half_even.
  pose proof (Qfloor_le q) as Hlo.
  assert (Ha : Qfloor q <= c).
  { rewrite Zle_Qle. eapply Qle_trans; eassumption. }
  assert (Hstep : (inject_Z (Qfloor q) < q)%Q -> Qfloor q + 1 <= c).
  { intros Hlt. assert (Qfloor q < c); [|lia].
    rewrite Zlt_Qlt. eapply Qlt_le_trans; eassumption. }
  destruct (Qcompare_spec (q - inject_Z (Qfloor q)) (1 # 2)) as [He|Hl|Hg].
  - destruct (Z.even (Qfloor q)); [exact Ha|]. apply Hstep.
    unfold inject_Z in *; lra.
  - exact Ha.
  - apply Hstep. unfold inject_Z in *; lra.
Qed.

Lemma round_half_even_ge (q : Q) (c : Z) :
  (inject_Z c <= q)%Q -> c <= round_half_even q.
Proof.
  intros Hq. unfold round_half_even.
  assert (Ha : c <= Qfloor q).
  { rewrite <- (Qfloor_Z c). apply Qfloor_resp_le. exact Hq. }
  destruct (q - inject_Z (Qfloor q) ?= 1 # 2)%Q; [destruct (Z.even _)| |]; lia.
Qed.

Lemma pow2_pos (e : Z) : (0 < 2 ^ e)%Q.
Proof. apply Qpower_0_lt. reflexivity. Qed.

Lemma pow2_inv (e : Z) : (2 ^ e * 2 ^ (- e) == 1)%Q.
Proof.
  rewrite <- Qpower_plus by discriminate.
  replace (e + - e) with 0 by lia. reflexivity.
Qed.

Lemma pow2_inject (n : Z) : 0 <= n -> (inject_Z (2 ^ n) == 2 ^ n)%Q.
Proof. intros Hn. apply (Zpower_Qpower 2 n Hn). Qed.

(** An upper bound on the exponent: below [2 ^ b], the binary logarithm
    is below [b]. *)
Lemma floor_log2_lt (q : Q) (b : Z) :
  0 <= b -> (0 < q)%Q -> (q < 2 ^ b)%Q -> floor_log2 q <= b - 1.
Proof.
  intros Hb Hq Hlt. unfold floor_log2.
  set (k := Z.log2 (Qnum q) - Z.log2 (Z.pos (Qden q))).
  destruct (Qle_bool (2 ^ k) q) eqn:Htest.
  - apply Qle_bool_iff in Htest.
    assert (k < b); [|lia].
    apply (Qpower_lt_compat_l_inv 2); [|reflexivity].
    eapply Qle_lt_trans; eassumption.
  - assert (k <= b); [|lia]. subst k.
    destruct q as [n d]. cbn [Qnum Qden].
    assert (Hn : 0 < n) by (unfold Qlt in Hq; simpl in Hq; lia).
    rewrite <- (pow2_inject b Hb) in Hlt.
    unfold Qlt in Hlt. cbn [Qnum Qden inject_Z] in Hlt.
    assert (Hle : Z.log2 n <= Z.log2 (Z.pos d * 2 ^ b)).
    { apply Z.log2_le_mono. lia. }
    rewrite Z.log2_mul_pow2 in Hle by lia. lia.
Qed.

(** Rounding a positive real below [2 ^ b] that does not exceed the
    integer [c]: the result is finite, does not exceed [c] either, and is
    within half a spacing, at most [2 ^ (b - 54)], of the real. *)
Lemma round_positive_bounded (q : Q) (b c : Z) :
  0 <= b <= 53 -> (0 < q)%Q -> (q < 2 ^ b)%Q -> (q <= inject_Z c)%Q ->
  c < 2 ^ 1024 ->
  exists v, round_positive q = FFin v
            /\ (0 <= v)%Q /\ (v <= inject_Z c)%Q
            /\ (Qabs (v - q) <= 2 ^ (b - 54))%Q.
Proof.
  intros Hb Hq Hlt Hc Hbig. unfold round_positive.
  pose proof (floor_log2_lt q b (proj1 Hb) Hq Hlt) as Hfl.
  set (e := Z.max (floor_log2 q - 52) (-1074)).
  assert (He : e <= b - 53) by lia.
  pose proof (pow2_pos e) as HP. pose proof (pow2_inv e) as Hinv.
  pose proof (pow2_pos (- e)) as HP'.
  assert (Hint : (inject_Z (2 ^ (- e)) == 2 ^ (- e))%Q)
    by (apply pow2_inject; lia).
  set (P := (2 ^ e)%Q) in *. set (P' := (2 ^ (- e))%Q) in *.
  assert (Hdiv : (q / P == q * P')%Q).
  { unfold Qdiv. apply Qmult_comp; [reflexivity|].
    apply (Qmult_inj_l _ _ P); [lra|].
    rewrite Qmult_inv_r by lra. symmetry. exact Hinv. }
  pose proof (round_half_even_near (q / P)) as [Hlo Hhi].
  assert (Hm0 : 0 <= round_half_even (q / P)).
  { apply round_half_even_ge. rewrite Hdiv. change (inject_Z 0) with 0%Q. nra. }
  assert (Hmc : round_half_even (q / P) <= c * 2 ^ (- e)).
  { apply round_half_even_le. rewrite inject_Z_mult, Hint, Hdiv. nra. }
  rewrite Zle_Qle in Hm0, Hmc. rewrite inject_Z_mult, Hint in Hmc.
  change (inject_Z 0) with 0%Q in Hm0.
  set (m := inject_Z (round_half_even (q / P))) in *.
  rewrite Hdiv in Hlo, Hhi.
  assert (Hvc : (m * P <= inject_Z c)%Q) by nra.
  assert (Hpow : (P <= 2 ^ (b - 53))%Q)
    by (apply Qpower_le_compat_l; [exact He|discriminate]).
  assert (Hhalf : (2 ^ (b - 53) == 2 * 2 ^ (b - 54))%Q).
  { replace (b - 53) with (1 + (b - 54)) by lia.
    rewrite Qpower_plus by discriminate. reflexivity. }
  assert (Hover : Qle_bool (2 ^ 1024) (m * P) = false).
  { destruct (Qle_bool (2 ^ 1024) (m * P)) eqn:Ht; [|reflexivity].
    apply Qle_bool_iff in Ht.
    rewrite <- (pow2_inject 1024) in Ht by lia.
    assert (Hcc : (inject_Z c < inject_Z (2 ^ 1024))%Q)
      by (rewrite <- Zlt_Qlt; exact Hbig).
    lra. }
  rewrite Hover. exists (Qred (m * P)). split; [reflexivity|].
  rewrite Qred_correct. split; [nra|]. split; [exact Hvc|].
  apply Qabs_Qle_condition. rewrite Hhalf in Hpow.
  set (H2 := (2 ^ (b - 54))%Q) in *. split; nra.
Qed.

Lemma round_double_bounded (q : Q) (b c : Z) :
  0 <= b <= 53 -> (0 <= q)%Q -> (q < 2 ^ b)%Q -> (q <= inject_Z c)%Q ->
  c < 2 ^ 1024 ->
  exists v, round_double q = FFin v
            /\ (0 <= v)%Q /\ (v <= inject_Z c)%Q
            /\ (Qabs (v - q) <= 2 ^ (b - 54))%Q.
Proof.
  intros Hb Hq Hlt Hc Hbig. unfold round_double.
  destruct (Qcompare_spec q 0) as [H0|Hneg|Hpos].
  - exists 0%Q. split; [reflexivity|]. split; [lra|]. split; [lra|].
    apply Qabs_Qle_condition. pose proof (pow2_pos (b - 54)). lra.
  - lra.
  - apply round_positive_bounded; assumption.
Qed.

(** A probability is read as a double that is a probability too, within
    [2 ^ -53] of the rational. *)
Lemma float_of_probability (top : Q) :
  (0 <= top)%Q -> (top <= 1)%Q ->
  exists p, float_of top = FFin p
            /\ (0 <= p)%Q /\ (p <= 1)%Q /\ (Qabs (p - top) <= 2 ^ (-53))%Q.
Proof.
  intros H0 H1.
  apply (round_double_bounded top 1 1); try lia; try assumption.
  change (2 ^ 1)%Q with 2%Q. lra.
Qed.

(** One hundred times a probability, in doubles: between 0 and 100 and
    within [2 ^ -47] of the exact product. *)
Lemma float_mul_probability (p : Q) :
  (0 <= p)%Q -> (p <= 1)%Q ->
  exists c, float_mul (FFin p) 100 = FFin c
            /\ (0 <= c)%Q /\ (c <= 100)%Q
            /\ (Qabs (c - p * 100) <= 2 ^ (-47))%Q.
Proof.
  intros H0 H1. unfold float_mul.
  apply (round_double_bounded (p * inject_Z 100) 7 100); try lia;
    change (inject_Z 100) with 100%Q; try change (2 ^ 7)%Q with 128%Q; lra.
Qed.

(** Sending the prediction leaves the session alone and never raises. *)
Lemma send_ml_prediction_session (rt : runtime) (st : string)
    (c : option pyfloat) (m : machine) :
  ss (fst (send_ml_prediction_to_esp32 rt st c m)) = ss m
  /\ exists sent_ok, snd (send_ml_prediction_to_esp32 rt st c m) = Ok sent_ok.
Proof.
  unfold send_ml_prediction_to_esp32, try_except, bind, lift, publish.
  destruct (confidence_int c) as [z|e]; simpl; [|eauto].
  destruct (publish_error rt _); simpl; eauto.
Qed.

(** The inference step never raises, and it leaves in the session either
    the error prediction or what [classify] returned. *)
Lemma inference_step_cases (rt : runtime) (model : classifier)
    (suhu lembab aqi : json) (m : machine) :
  ml_model rt = Some model ->
  snd (inference_step rt suhu lembab aqi m) = Ok tt
  /\ match classify rt model suhu lembab aqi with
     | Raise _ =>
         ml_prediction (ss (fst (inference_step rt suhu lembab aqi m)))
         = error_prediction
         /\ outbox (fst (inference_step rt suhu lembab aqi m)) = outbox m
     | Ok (label, conf) =>
         ml_prediction (ss (fst (inference_step rt suhu lembab aqi m)))
         = match TerminalLogger.ml_prediction suhu lembab aqi with
           | Ok _ => {| status := label; confidence := conf |}
           | Raise _ => error_prediction
           end
     end.
Proof.
  intros Hmodel. unfold inference_step. rewrite Hmodel.
  unfold try_except, bind, lift.
  destruct (classify rt model suhu lembab aqi) as [[label conf]|e]; simpl;
    [|auto].
  set (m1 := {| ss := set_ml_prediction {| status := label; confidence := conf |} (ss m);
                outbox := outbox m; data_received := data_received m |}).
  destruct (send_ml_prediction_session rt label conf m1) as [Hss [ok Hok]].
  destruct (send_ml_prediction_to_esp32 rt label conf m1) as [m2 r] eqn:Hsend.
  simpl in Hss, Hok. subst r.
  destruct (TerminalLogger.ml_prediction suhu lembab aqi) as [[]|e]; simpl.
  - rewrite Hss. auto.
  - auto.
Qed.

(** What [classify] returns, step by step. *)
Lemma classify_steps (rt : runtime) (model : classifier)
    (suhu lembab aqi : json) (label : string) (conf : option pyfloat) :
  classify rt model suhu lembab aqi = Ok (label, conf) ->
  exists (X : list json) (raw : rawclass),
    match ml_scaler rt with
    | Some scaler => scaler [suhu; lembab; aqi] = Ok X
    | None => X = [suhu; lembab; aqi]
    end
    /\ predict model X = Ok raw
    /\ match ml_label_encoder rt with
       | Some inverse_transform =>
           exists decoded, inverse_transform raw = Ok decoded
                           /\ label = display_table decoded
       | None => label = ordinal_table raw
       end
    /\ match predict_proba model with
       | Some proba_of =>
           exists proba top, proba_of X = Ok proba
                             /\ is_maximum top proba
                             /\ conf = Some (float_mul (float_of top) 100)
       | None => conf = None
       end.
Proof.
  unfold classify. intros H.
  assert (HX : exists X,
             match ml_scaler rt with
             | Some scaler => scaler [suhu; lembab; aqi]
             | None => Ok [suhu; lembab; aqi]
             end = Ok X).
  { destruct (match ml_scaler rt with
              | Some scaler => scaler [suhu; lembab; aqi]
              | None => Ok [suhu; lembab; aqi]
              end); [eauto|discriminate]. }
  destruct HX as [X HX]. rewrite HX in H. cbn [rbind] in H.
  destruct (predict model X) as [raw|e] eqn:Hraw; [|discriminate].
  cbn [rbind] in H.
  exists X, raw. split.
  { destruct (ml_scaler rt); [exact HX|congruence]. }
  split; [exact Hraw|].
  destruct (ml_label_encoder rt) as [dec|].
  - destruct (dec raw) as [decoded|e] eqn:Hdec; [|discriminate].
    cbn [rbind] in H.
    destruct (predict_proba model) as [pp|].
    + destruct (pp X) as [proba|e] eqn:Hpp; [|discriminate].
      cbn [rbind] in H.
      destruct (np_max proba) as [top|e] eqn:Htop; [|discriminate].
      cbn [rbind] in H. injection H as <- <-.
      split; [exists decoded; split; [reflexivity|apply text_map_get_display]|].
      exists proba, top. split; [reflexivity|]. split; [|reflexivity].
      apply (np_max_is_maximum _ _ Htop).
    + cbn [rbind] in H. injection H as <- <-.
      split; [exists decoded; split; [reflexivity|apply text_map_get_display]|].
      reflexivity.
  - cbn [rbind] in H.
    destruct (predict_proba model) as [pp|].
    + destruct (pp X) as [proba|e] eqn:Hpp; [|discriminate].
      cbn [rbind] in H.
      destruct (np_max proba) as [top|e] eqn:Htop; [|discriminate].
      cbn [rbind] in H. injection H as <- <-.
      split; [apply label_map_get_ordinal|].
      exists proba, top. split; [reflexivity|]. split; [|reflexivity].
      apply (np_max_is_maximum _ _ Htop).
    + cbn [rbind] in H. injection H as <- <-.
      split; [apply label_map_get_ordinal|reflexivity].
Qed.

(** When no collaborator raises, [classify] returns. *)
Lemma classify_returns (rt : runtime) (model : classifier)
    (suhu lembab aqi : json) (X : list json) (raw : rawclass) :
  match ml_scaler rt with
  | Some scaler => scaler [suhu; lembab; aqi] = Ok X
  | None => X = [suhu; lembab; aqi]
  end ->
  predict model X = Ok raw ->
  match ml_label_encoder rt with
  | Some inverse_transform => exists decoded, inverse_transform raw = Ok decoded
  | None => True
  end ->
  match predict_proba model with
  | Some proba_of => exists p rest, proba_of X = Ok (p :: rest)
  | None => True
  end ->
  exists label conf, classify rt model suhu lembab aqi = Ok (label, conf).
Proof.
  intros HX Hraw Hdec Hpp. unfold classify.
  assert (HX' : match ml_scaler rt with
                | Some scaler => scaler [suhu; lembab; aqi]
                | None => Ok [suhu; lembab; aqi]
                end = Ok X).
  { destruct (ml_scaler rt); [exact HX|congruence]. }
  rewrite HX'. cbn [rbind]. rewrite Hraw. cbn [rbind].
  destruct (ml_label_encoder rt) as [dec|];
    [destruct Hdec as [decoded ->]|]; cbn [rbind];
    (destruct (predict_proba model) as [pp|];
      [destruct Hpp as (p & rest & ->); cbn [rbind np_max]|]; cbn [rbind];
      eauto).
Qed.

(** C1, as the code has it.  With a model loaded, for every feature triple
    (any three decoded values, malformed or out of range included) the
    inference step returns without raising and leaves a prediction in the
    session whose label is one of Aman (Safe), Waspada (Caution), Bahaya
    (Danger), Unknown, Error, or else a string the label decoder produced
    that the display table does not list; and whenever feature building,
    scaling, prediction, decoding or probability estimation raises, the
    label is Error, the confidence is absent and nothing is published. *)
Theorem inference_step_never_raises (rt : runtime) (model : classifier)
    (suhu lembab aqi : json) (m : machine) :
  ml_model rt = Some model ->
  let r := inference_step rt suhu lembab aqi m in
  let p := ml_prediction (ss (fst r)) in
  snd r = Ok tt
  /\ (In (status p) known_labels
      \/ exists inverse_transform raw,
           ml_label_encoder rt = Some inverse_transform
           /\ inverse_transform raw = Ok (status p)
           /\ text_map !! status p = None)
  /\ (forall e, classify rt model suhu lembab aqi = Raise e ->
        p = error_prediction /\ outbox (fst r) = outbox m).
Proof.
  intros Hmodel r p. subst r p.
  destruct (inference_step_cases rt model suhu lembab aqi m Hmodel)
    as [Hret Hcases].
  split; [exact Hret|].
  destruct (classify rt model suhu lembab aqi) as [[label conf]|e] eqn:Hc.
  - split; [|intros e He; discriminate].
    rewrite Hcases.
    destruct (TerminalLogger.ml_prediction suhu lembab aqi) as [[]|e];
      [|left; unfold known_labels; simpl; auto 6].
    cbn [status].
    destruct (classify_steps rt model suhu lembab aqi label conf Hc)
      as (X & raw & _ & _ & Hlabel & _).
    destruct (ml_label_encoder rt) as [dec|] eqn:Hdec.
    + destruct Hlabel as (decoded & Hdecoded & ->).
      destruct (display_table_cases decoded) as [Hin|[Heq Hnone]];
        [left; exact Hin|].
      right. exists dec, raw. rewrite Heq. auto.
    + subst label. left. apply ordinal_table_known.
  - destruct Hcases as [Hp Hout].
    split; [left; rewrite Hp; unfold known_labels; simpl; auto 6|].
    intros e' _. split; assumption.
Qed.

Lemma inference_step_never_raises_witness :
  snd (inference_step rt_model_raises
         (JFloat (FFin 1000)) (JInt 50) (JInt (-5)) initial_machine) = Ok tt
  /\ ml_prediction (ss (fst (inference_step rt_model_raises
         (JFloat (FFin 1000)) (JInt 50) (JInt (-5)) initial_machine)))
     = error_prediction.
Proof.
  destruct (inference_step_never_raises rt_model_raises
              {| predict := fun _ => Raise ValueError; predict_proba := None |}
              (JFloat (FFin 1000)) (JInt 50) (JInt (-5)) initial_machine
              eq_refl) as (Hret & _ & Herr).
  split; [exact Hret|].
  apply (Herr ValueError). reflexivity.
Defined.

(** C1 as stated fails: when the label decoder answers ["NORMAL"], the
    inference step stores the label ["NORMAL"], which is none of Aman,
    Waspada, Bahaya, Unknown, Error. *)
Lemma label_outside_known_set :
  status (ml_prediction (ss (fst (inference_step rt_decoder_normal
            (JInt 25) (JInt 50) (JInt 40) initial_machine)))) = "NORMAL"
  /\ ~ In "NORMAL" known_labels.
Proof.
  split; [vm_compute; reflexivity|].
  unfold known_labels. simpl. intros [H|[H|[H|[H|[H|[]]]]]]; discriminate.
Qed.

(** C8, as the code has it.  [classify] follows the reference pipeline.
    Whenever it returns a pair, there are a feature vector [X] and a raw
    class such that: [X] is the scaler's transform of (temperature,
    humidity, AQI) in that order when a scaler is present, and that triple
    itself otherwise; the raw class is the classifier's prediction on [X];
    the label is the decoded class sent through the display table
    (unlisted strings unchanged) when a decoder is present, the ordinal
    mapping with default Unknown otherwise; and the confidence is the
    product, in doubles, of a largest class probability on [X] and 100
    when probabilities are exposed, absent otherwise.  The product is
    rounded once: for a probability between 0 and 1 it is a finite double
    within [2 ^ -47], half the spacing of the doubles below 128, of 100
    times the double the probability stands for.  When none of the
    collaborators raises, [classify] does return; and its pair is what the
    inference step stores once the log line has been written. *)
Theorem classify_matches_reference (rt : runtime) (model : classifier)
    (suhu lembab aqi : json) :
  (forall (label : string) (conf : option pyfloat),
      classify rt model suhu lembab aqi = Ok (label, conf) ->
      exists (X : list json) (raw : rawclass),
        match ml_scaler rt with
        | Some scaler => scaler [suhu; lembab; aqi] = Ok X
        | None => X = [suhu; lembab; aqi]
        end
        /\ predict model X = Ok raw
        /\ match ml_label_encoder rt with
           | Some inverse_transform =>
               exists decoded, inverse_transform raw = Ok decoded
                               /\ label = display_table decoded
           | None => label = ordinal_table raw
           end
        /\ match predict_proba model with
           | Some proba_of =>
               exists proba top, proba_of X = Ok proba
                                 /\ is_maximum top proba
                                 /\ conf = Some (float_mul (float_of top) 100)
                                 /\ ((0 <= top)%Q -> (top <= 1)%Q ->
                                     exists p c,
                                       float_of top = FFin p
                                       /\ (Qabs (p - top) <= 2 ^ (-53))%Q
                                       /\ conf = Some (FFin c)
                                       /\ (Qabs (c - p * 100) <= 2 ^ (-47))%Q)
           | None => conf = None
           end)
  /\ (forall (X : list json) (raw : rawclass),
        match ml_scaler rt with
        | Some scaler => scaler [suhu; lembab; aqi] = Ok X
        | None => X = [suhu; lembab; aqi]
        end ->
        predict model X = Ok raw ->
        match ml_label_encoder rt with
        | Some inverse_transform =>
            exists decoded, inverse_transform raw = Ok decoded
        | None => True
        end ->
        match predict_proba model with
        | Some proba_of => exists p rest, proba_of X = Ok (p :: rest)
        | None => True
        end ->
        exists label conf, classify rt model suhu lembab aqi = Ok (label, conf))
  /\ (forall (m : machine) (label : string) (conf : option pyfloat),
        ml_model rt = Some model ->
        classify rt model suhu lembab aqi = Ok (label, conf) ->
        TerminalLogger.ml_prediction suhu lembab aqi = Ok tt ->
        ml_prediction (ss (fst (inference_step rt suhu lembab aqi m)))
        = {| status := label; confidence := conf |}).
Proof.
  split.
  { intros label conf Hc.
    destruct (classify_steps rt model suhu lembab aqi label conf Hc)
      as (X & raw & HX & Hraw & Hlabel & Hconf).
    exists X, raw. split; [exact HX|]. split; [exact Hraw|].
    split; [exact Hlabel|].
    destruct (predict_proba model) as [proba_of|]; [|exact Hconf].
    destruct Hconf as (proba & top & Hproba & Hmax & Heq).
    exists proba, top. split; [exact Hproba|]. split; [exact Hmax|].
    split; [exact Heq|]. intros H0 H1.
    destruct (float_of_probability top H0 H1) as (p & Hp & Hp0 & Hp1 & Hnear).
    destruct (float_mul_probability p Hp0 Hp1) as (c & Hmul & _ & _ & Hprod).
    exists p, c. rewrite Heq, Hp, Hmul. auto. }
  split; [intros X raw; apply classify_returns|].
  intros m label conf Hmodel Hc Hlog.
  destruct (inference_step_cases rt model suhu lembab aqi m Hmodel)
    as [_ Hcases].
  rewrite Hc, Hlog in Hcases. exact Hcases.
Qed.

Lemma classify_matches_reference_witness :
  classify rt_with_model
    {| predict := fun _ => Ok (CInt 0);
       predict_proba := Some (fun _ => Ok [(9 # 10)%Q; (7 # 100)%Q; (3 # 100)%Q]) |}
    (JFloat (FFin (57 # 2))) (JInt 60) (JInt 45)
  = Ok ("Aman", Some (FFin 90))
  /\ ml_prediction (ss (fst (inference_step rt_with_model
       (JFloat (FFin (57 # 2))) (JInt 60) (JInt 45) initial_machine)))
     = {| status := "Aman"; confidence := Some (FFin 90) |}.
Proof.
  pose (model := {| predict := fun _ : list json => Ok (CInt 0);
                    predict_proba :=
                      Some (fun _ : list json =>
                              Ok [(9 # 10)%Q; (7 # 100)%Q; (3 # 100)%Q]) |}).
  destruct (classify_matches_reference rt_with_model model
              (JFloat (FFin (57 # 2))) (JInt 60) (JInt 45))
    as (_ & Hret & Hstore).
  destruct (Hret [JFloat (FFin (57 # 2)); JInt 60; JInt 45] (CInt 0)
              eq_refl eq_refl I
              (ex_intro _ (9 # 10)%Q
                 (ex_intro _ [(7 # 100)%Q; (3 # 100)%Q] eq_refl)))
    as (label & conf & Hc).
  assert (Hval : classify rt_with_model model
                   (JFloat (FFin (57 # 2))) (JInt 60) (JInt 45)
                 = Ok ("Aman", Some (FFin 90))) by (vm_compute; reflexivity).
  split; [exact Hval|].
  apply (Hstore initial_machine "Aman" (Some (FFin 90)) eq_refl Hval).
  reflexivity.
Defined.

(** C8 as stated fails in the last place: the confidence is the rounded
    product, not the product.  The largest probability of the example is
    the double nearest to 0.6; one hundred times that double is below 60,
    while the confidence stored is the double 60.0, and the integer sent
    to the device is 60 where the integer part of the exact product is
    59. *)
Lemma confidence_is_the_rounded_product :
  float_of (6 # 10) = FFin (5404319552844595 # 9007199254740992)
  /\ ((5404319552844595 # 9007199254740992) * 100 < 60)%Q
  /\ Qfloor ((5404319552844595 # 9007199254740992) * 100) = 59
  /\ classify rt_with_model example_classifier_sixty
       (JFloat (FFin (57 # 2))) (JInt 60) (JInt 45)
     = Ok ("Aman", Some (FFin 60))
  /\ confidence_int (Some (FFin 60)) = Ok 60.
Proof. repeat split; vm_compute; reflexivity. Qed.

(** ** The MQTT worker *)

Section WorkerProperties.

Variables (broker : string) (port : Z) (topic_sensor topic_response : string).

Abbreviation run := (mqtt_worker broker port topic_sensor topic_response).
Abbreviation Obeys := (obeys broker port topic_sensor topic_response).

Lemma obeys_loop_forever (evs : list transport_event) (w : worker)
    (tail : list observation) :
  Obeys tail ->
  Obeys (snd (loop_forever topic_sensor topic_response evs w) ++ tail).
Proof.
  intros Htail. revert w. induction evs as [|ev evs IH]; intros w; simpl;
    [exact Htail|].
  destruct (dispatch topic_sensor topic_response ev w) as [w1 obs1] eqn:Hd.
  specialize (IH w1).
  destruct (loop_forever topic_sensor topic_response evs w1) as [w2 obs2].
  simpl in *. unfold dispatch in Hd.
  destruct ev as [rc|topic decoded received|rc].
  - unfold _on_connect in Hd. destruct (Z.eqb_spec rc 0) as [->|Hrc].
    + injection Hd as <- <-. simpl. repeat split; eauto.
    + injection Hd as <- <-. simpl. split; [|exact IH].
      destruct rc; [congruence|exact I|exact I].
  - unfold _on_message in Hd.
    destruct decoded as [data|e];
      [destruct (String.eqb topic topic_sensor);
        [|destruct (String.eqb topic topic_response)]|];
      injection Hd as <- <-; simpl; split; auto.
  - unfold _on_disconnect in Hd. injection Hd as <- <-. simpl. split; auto.
Qed.

Lemma run_cons_connect (a : attempt) (script : list attempt) (w : worker) :
  exists rest, snd (run (a :: script) w) = Did (Connect broker port 60) :: rest.
Proof.
  simpl. unfold attempt_once.
  destruct (connect_result a) as [|e].
  - destruct (loop_forever topic_sensor topic_response (events a) w) as [w1 obs1].
    destruct (match loop_result a with
              | Returns => (w1, [])
              | Raises e => on_exception e w1
              end) as [w2 obs2].
    destruct (run script w2) as [w3 obs3]. simpl. eauto.
  - simpl. destruct (run script (set_connected false w)) as [w3 obs3].
    simpl. eauto.
Qed.

Lemma run_starts_with_connect (script : list attempt) (w : worker) :
  snd (run script w) = []
  \/ exists rest, snd (run script w) = Did (Connect broker port 60) :: rest.
Proof.
  destruct script as [|a script]; [left; reflexivity|right].
  apply run_cons_connect.
Qed.

Lemma run_app (s1 s2 : list attempt) (w : worker) :
  snd (run (s1 ++ s2) w)
  = snd (run s1 w) ++ snd (run s2 (fst (run s1 w))).
Proof.
  revert w. induction s1 as [|a s1 IH]; intros w; [reflexivity|].
  simpl. destruct (attempt_once broker port topic_sensor topic_response a w)
    as [w1 obs1].
  specialize (IH w1).
  destruct (run (s1 ++ s2) w1) as [w2 obs2].
  destruct (run s1 w1) as [w2' obs2']. simpl in *.
  rewrite IH, app_assoc. reflexivity.
Qed.

Lemma obeys_run (script : list attempt) (w : worker) :
  Obeys (snd (run script w)).
Proof.
  revert w. induction script as [|a script IH]; intros w; [exact I|].
  simpl. unfold attempt_once.
  destruct (connect_result a) as [|e].
  - pose proof (obeys_loop_forever (events a) w) as Hloop.
    destruct (loop_forever topic_sensor topic_response (events a) w)
      as [w1 obs1]. simpl in Hloop.
    destruct (loop_result a) as [|e]; simpl.
    + specialize (IH w1). destruct (run script w1) as [w3 obs3]. simpl in *.
      rewrite app_nil_r. repeat split; try exact I. apply Hloop, IH.
    + specialize (IH (set_connected false w1)).
      pose proof (run_starts_with_connect script (set_connected false w1)) as Hs.
      destruct (run script (set_connected false w1)) as [w3 obs3]. simpl in *.
      rewrite <- app_assoc. repeat split; try exact I.
      apply Hloop. simpl. repeat split; eauto.
  - simpl. specialize (IH (set_connected false w)).
    pose proof (run_starts_with_connect script (set_connected false w)) as Hs.
    destruct (run script (set_connected false w)) as [w3 obs3]. simpl in *.
    repeat split; eauto.
Qed.

Lemma obeys_decompose (pre post : list observation) (x : observation) :
  Obeys (pre ++ x :: post) ->
  followed_ok broker port topic_sensor topic_response x post.
Proof.
  induction pre as [|y pre IH]; simpl; intros [H1 H2]; [exact H1|].
  apply IH, H2.
Qed.

Lemma loop_forever_no_connect_no_sleep (evs : list transport_event) (w : worker) :
  List.filter is_connect (snd (loop_forever topic_sensor topic_response evs w)) = []
  /\ List.filter is_sleep (snd (loop_forever topic_sensor topic_response evs w)) = [].
Proof.
  revert w. induction evs as [|ev evs IH]; intros w; simpl; [auto|].
  destruct (dispatch topic_sensor topic_response ev w) as [w1 obs1] eqn:Hd.
  specialize (IH w1).
  destruct (loop_forever topic_sensor topic_response evs w1) as [w2 obs2].
  simpl in *. destruct IH as [IH1 IH2]. rewrite !List.filter_app, IH1, IH2.
  unfold dispatch in Hd.
  destruct ev as [rc|topic decoded received|rc].
  - unfold _on_connect in Hd. destruct (rc =? 0); injection Hd as <- <-; auto.
  - unfold _on_message in Hd.
    destruct decoded as [data|e];
      [destruct (String.eqb topic topic_sensor);
        [|destruct (String.eqb topic topic_response)]|];
      injection Hd as <- <-; auto.
  - unfold _on_disconnect in Hd. injection Hd as <- <-; auto.
Qed.

Lemma run_counts (script : list attempt) (w : worker) :
  length (List.filter is_connect (snd (run script w))) = length script
  /\ length (List.filter is_sleep (snd (run script w)))
     = length (List.filter fails script).
Proof.
  revert w. induction script as [|a script IH]; intros w; [auto|].
  simpl. unfold attempt_once, fails.
  destruct (connect_result a) as [|e].
  - pose proof (loop_forever_no_connect_no_sleep (events a) w) as [Hc Hs].
    destruct (loop_forever topic_sensor topic_response (events a) w)
      as [w1 obs1]. simpl in Hc, Hs.
    destruct (loop_result a) as [|e]; simpl.
    + specialize (IH w1). destruct (run script w1) as [w3 obs3]. simpl in *.
      rewrite !List.filter_app, Hc, Hs. simpl. destruct IH as [-> ->]. auto.
    + specialize (IH (set_connected false w1)).
      destruct (run script (set_connected false w1)) as [w3 obs3]. simpl in *.
      rewrite !List.filter_app, Hc, Hs. simpl. destruct IH as [-> ->]. auto.
  - simpl. specialize (IH (set_connected false w)).
    destruct (run script (set_connected false w)) as [w3 obs3]. simpl in *.
    destruct IH as [-> ->]. auto.
Qed.

End WorkerProperties.

(** C9, as the code has it.  The reconnect loop, against any script of
    transport behaviour.  The loop is never left: the worker makes one
    connection attempt per turn of the script, whatever the outcomes of
    the turns before, and whatever has happened so far, one more turn
    begins with one more connection attempt.  The backoff belongs to the
    exception handler alone: every exception the worker catches, from
    [connect] or from [loop_forever], is followed at once by the
    three-second sleep and then by the next connection attempt, there is
    one such sleep per turn that ended in the handler, and a turn whose
    [connect] and [loop_forever] both return sleeps never.  A disconnect
    or a refused handshake reported through the callbacks clears the flag
    and does nothing else.  Every acknowledged connection ([rc = 0]) is
    followed at once by the subscriptions to the sensor topic and to the
    response topic. *)
Theorem reconnect_loop (broker : string) (port : Z)
    (topic_sensor topic_response : string)
    (script : list attempt) (w : worker) :
  let tr := snd (mqtt_worker broker port topic_sensor topic_response script w) in
  length (List.filter is_connect tr) = length script
  /\ (forall a : attempt,
        exists more,
          snd (mqtt_worker broker port topic_sensor topic_response
                 (script ++ [a]) w)
          = tr ++ Did (Connect broker port 60) :: more)
  /\ length (List.filter is_sleep tr) = length (List.filter fails script)
  /\ (forall pre e post,
        tr = pre ++ Caught e :: post ->
        exists post', post = Did (Sleep 3) :: post'
          /\ (post' = []
              \/ exists post'', post' = Did (Connect broker port 60) :: post''))
  /\ (forall pre post,
        tr = pre ++ Saw (ConnAck 0) :: post ->
        exists post',
          post = Did (Subscribe topic_sensor 1)
                 :: Did (Subscribe topic_response 1) :: post')
  /\ (forall (a : attempt) (w0 : worker),
        fails a = false ->
        List.filter is_sleep
          (snd (attempt_once broker port topic_sensor topic_response a w0)) = [])
  /\ (forall (rc : Z) (w0 : worker),
        dispatch topic_sensor topic_response (Disconnect rc) w0
        = (set_connected false w0, [Saw (Disconnect rc)]))
  /\ (forall (rc : Z) (w0 : worker),
        rc <> 0 ->
        dispatch topic_sensor topic_response (ConnAck rc) w0
        = (set_connected false w0, [Saw (ConnAck rc)])).
Proof.
  intros tr. subst tr.
  pose proof (run_counts broker port topic_sensor topic_response script w)
    as [Hc Hs].
  pose proof (obeys_run broker port topic_sensor topic_response script w) as Ho.
  split; [exact Hc|]. split.
  { intros a. rewrite run_app.
    destruct (run_cons_connect broker port topic_sensor topic_response a []
                (fst (mqtt_worker broker port topic_sensor topic_response
                        script w))) as [more Hmore].
    exists more. rewrite Hmore. reflexivity. }
  split; [exact Hs|]. split.
  { intros pre e post Heq. rewrite Heq in Ho.
    exact (obeys_decompose broker port topic_sensor topic_response _ _ _ Ho). }
  split.
  { intros pre post Heq. rewrite Heq in Ho.
    exact (obeys_decompose broker port topic_sensor topic_response _ _ _ Ho). }
  split.
  { intros a w0 Hf. unfold fails in Hf. unfold attempt_once.
    destruct (connect_result a); [|discriminate].
    destruct (loop_forever_no_connect_no_sleep topic_sensor topic_response
                (events a) w0) as [_ Hsl].
    destruct (loop_forever topic_sensor topic_response (events a) w0)
      as [w1 obs1].
    destruct (loop_result a); [|discriminate].
    cbn [snd] in *. cbn [List.filter is_sleep].
    rewrite List.filter_app, Hsl. reflexivity. }
  split.
  - intros rc w0. reflexivity.
  - intros rc w0 Hrc. unfold dispatch, _on_connect.
    destruct (Z.eqb_spec rc 0); [contradiction|reflexivity].
Qed.

Lemma reconnect_loop_witness :
  snd (mqtt_worker MQTT_BROKER MQTT_PORT TOPIC_DATA TOPIC_RESPONSE
         example_script initial_worker)
  = [ Did (Connect MQTT_BROKER MQTT_PORT 60); Caught OSError; Did (Sleep 3);
      Did (Connect MQTT_BROKER MQTT_PORT 60); Did LoopForever;
      Saw (ConnAck 0); Did (Subscribe TOPIC_DATA 1);
      Did (Subscribe TOPIC_RESPONSE 1);
      Saw (Message TOPIC_DATA (Ok example_reading) 0); Saw (Disconnect 7);
      Caught OSError; Did (Sleep 3);
      Did (Connect MQTT_BROKER MQTT_PORT 60); Did LoopForever;
      Saw (ConnAck 0); Did (Subscribe TOPIC_DATA 1);
      Did (Subscribe TOPIC_RESPONSE 1) ]
  /\ exists post',
       [ Did (Sleep 3);
         Did (Connect MQTT_BROKER MQTT_PORT 60); Did LoopForever;
         Saw (ConnAck 0); Did (Subscribe TOPIC_DATA 1);
         Did (Subscribe TOPIC_RESPONSE 1) ]
       = Did (Sleep 3) :: post'
       /\ (post' = []
           \/ exists post'', post' = Did (Connect MQTT_BROKER MQTT_PORT 60) :: post'').
Proof.
  assert (Htr : snd (mqtt_worker MQTT_BROKER MQTT_PORT TOPIC_DATA TOPIC_RESPONSE
                       example_script initial_worker)
    = [ Did (Connect MQTT_BROKER MQTT_PORT 60); Caught OSError; Did (Sleep 3);
        Did (Connect MQTT_BROKER MQTT_PORT 60); Did LoopForever;
        Saw (ConnAck 0); Did (Subscribe TOPIC_DATA 1);
        Did (Subscribe TOPIC_RESPONSE 1);
        Saw (Message TOPIC_DATA (Ok example_reading) 0); Saw (Disconnect 7) ]
      ++ Caught OSError
         :: [ Did (Sleep 3);
              Did (Connect MQTT_BROKER MQTT_PORT 60); Did LoopForever;
              Saw (ConnAck 0); Did (Subscribe TOPIC_DATA 1);
              Did (Subscribe TOPIC_RESPONSE 1) ]) by reflexivity.
  split; [exact Htr|].
  destruct (reconnect_loop MQTT_BROKER MQTT_PORT TOPIC_DATA TOPIC_RESPONSE
              example_script initial_worker) as (_ & _ & _ & Hcaught & _).
  exact (Hcaught _ _ _ Htr).
Defined.

(** C9 as stated fails for the failures the transport reports through
    the callbacks: after a refused handshake and after a reported
    disconnect the worker, once [loop_forever] has returned, connects
    again at once; and when the library reconnects by itself the worker
    is not involved at all.  The flag is down after each of the first two
    turns, and the whole run contains no sleep. *)
Lemma reported_failure_without_backoff :
  snd (mqtt_worker MQTT_BROKER MQTT_PORT TOPIC_DATA TOPIC_RESPONSE
         script_reported_failures initial_worker)
  = [ Did (Connect MQTT_BROKER MQTT_PORT 60); Did LoopForever;
      Saw (ConnAck 5);
      Did (Connect MQTT_BROKER MQTT_PORT 60); Did LoopForever;
      Saw (ConnAck 0); Did (Subscribe TOPIC_DATA 1);
      Did (Subscribe TOPIC_RESPONSE 1); Saw (Disconnect 7);
      Did (Connect MQTT_BROKER MQTT_PORT 60); Did LoopForever;
      Saw (ConnAck 0); Did (Subscribe TOPIC_DATA 1);
      Did (Subscribe TOPIC_RESPONSE 1); Saw (Disconnect 7);
      Saw (ConnAck 0); Did (Subscribe TOPIC_DATA 1);
      Did (Subscribe TOPIC_RESPONSE 1) ]
  /\ List.filter is_sleep
       (snd (mqtt_worker MQTT_BROKER MQTT_PORT TOPIC_DATA TOPIC_RESPONSE
               script_reported_failures initial_worker)) = []
  /\ connected
       (fst (mqtt_worker MQTT_BROKER MQTT_PORT TOPIC_DATA TOPIC_RESPONSE
               (firstn 1 script_reported_failures) initial_worker)) = false
  /\ connected
       (fst (mqtt_worker MQTT_BROKER MQTT_PORT TOPIC_DATA TOPIC_RESPONSE
               (firstn 2 script_reported_failures) initial_worker)) = false.
Proof. repeat split; reflexivity. Qed.

From Stdlib Require Import Lqa Qround.

(** * Further properties *)

(** ** Command publisher *)

Lemma keyword_named (name : string) (kwargs : gmap string json) :
  existsb (String.eqb name) (map fst (map_to_list kwargs))
  = match kwargs !! name with Some _ => true | None => false end.
Proof.
  destruct (kwargs !! name) as [v|] eqn:Hk.
  - apply existsb_exists. exists name. split; [|apply String.eqb_refl].
    apply in_map_iff. exists (name, v). split; [reflexivity|].
    apply list_elem_of_In, elem_of_map_to_list. exact Hk.
  - destruct (existsb (String.eqb name) (map fst (map_to_list kwargs))) eqn:He;
      [|reflexivity].
    apply existsb_exists in He as (x & Hin & Hx).
    apply String.eqb_eq in Hx. subst x.
    apply in_map_iff in Hin as ([k v] & Hfst & Hin). simpl in Hfst. subst k.
    apply list_elem_of_In, elem_of_map_to_list in Hin. congruence.
Qed.

(** [send_command_to_esp32] never touches the session.  Called with a
    keyword argument named [command] it raises [TypeError] and does
    nothing.  Otherwise it never raises, and the publisher is handed one
    more message, on the command topic, exactly when [publish] does not
    raise; it answers [True] exactly when moreover no keyword argument is
    named [cmd]: with such a keyword the command is published and the log
    call that follows raises, so the answer is [False] although the
    device has received the command.  The payload holds every keyword
    argument, and [cmd] is the command name unless a keyword argument is
    itself called [cmd]. *)
Theorem send_command_contract (rt : runtime) (command : string)
    (kwargs : gmap string json) (m : machine) :
  let payload_dict : gmap string json := kwargs ∪ <["cmd" := JStr command]> ∅ in
  let msg := {| topic := TOPIC_COMMAND; body := JDict payload_dict |} in
  let r := send_command_to_esp32 rt command kwargs m in
  ss (fst r) = ss m
  /\ data_received (fst r) = data_received m
  /\ match kwargs !! "command" with
     | Some _ => snd r = Raise TypeError /\ outbox (fst r) = outbox m
     | None =>
         match publish_error rt msg with
         | None =>
             outbox (fst r) = outbox m ++ [msg]
             /\ snd r = Ok (match kwargs !! "cmd" with
                            | Some _ => false
                            | None => true
                            end)
         | Some _ => outbox (fst r) = outbox m /\ snd r = Ok false
         end
     end
  /\ (forall k, payload_dict !! k =
                match kwargs !! k with
                | Some v => Some v
                | None => if String.eqb k "cmd" then Some (JStr command) else None
                end).
Proof.
  intros payload_dict msg r. subst r.
  unfold send_command_to_esp32, try_except, bind, lift, publish, ret, raise, emit,
    TerminalLogger.command_sent.
  fold payload_dict. fold msg. rewrite (keyword_named "cmd" kwargs).
  split; [destruct (kwargs !! "command"), (publish_error rt msg),
            (kwargs !! "cmd"); reflexivity|].
  split; [destruct (kwargs !! "command"), (publish_error rt msg),
            (kwargs !! "cmd"); reflexivity|].
  split; [destruct (kwargs !! "command"), (publish_error rt msg),
            (kwargs !! "cmd"); simpl; auto|].
  intros k. subst payload_dict. rewrite lookup_union.
  destruct (kwargs !! k) as [v|] eqn:Hk.
  - destruct (<["cmd":=JStr command]> (∅ : gmap string json) !! k); reflexivity.
  - destruct (String.eqb_spec k "cmd") as [->|Hne].
    + rewrite lookup_insert_eq. reflexivity.
    + rewrite lookup_insert_ne by congruence. rewrite lookup_empty. reflexivity.
Qed.

(** ** Device responses *)

Lemma process_device_responses_acc (q acc : list item) (m : machine) :
  snd (process_device_responses q acc m) = Ok (acc ++ q)
  /\ outbox (fst (process_device_responses q acc m)) = outbox m
  /\ data_received (fst (process_device_responses q acc m)) = data_received m
  /\ ss (fst (process_device_responses q acc m))
     = match last q with
       | Some it => set_last_device_response (Some it) (ss m)
       | None => ss m
       end.
Proof.
  revert acc m. induction q as [|it q IH]; intros acc m.
  - simpl. rewrite app_nil_r. auto.
  - change (process_device_responses (it :: q) acc m)
      with (process_device_responses q (acc ++ [it])
              {| ss := set_last_device_response (Some it) (ss m);
                 outbox := outbox m; data_received := data_received m |}).
    specialize (IH (acc ++ [it])
      {| ss := set_last_device_response (Some it) (ss m);
         outbox := outbox m; data_received := data_received m |}).
    destruct IH as (Hr & Ho & Hd & Hs).
    rewrite Hr, Ho, Hd, Hs. rewrite <- app_assoc.
    repeat split; try reflexivity.
    destruct q as [|it' q]; [reflexivity|].
    rewrite last_cons_cons.
    destruct (last (it' :: q)) eqn:Hl; [reflexivity|].
    apply last_None in Hl. discriminate.
Qed.

(** [process_device_responses] returns every queued response in arrival
    order and keeps only the most recent one as [last_device_response];
    with an empty queue the session is untouched.  It publishes nothing
    and changes no other field. *)
Theorem device_responses_keep_last (q : list item) (m : machine) :
  let r := process_device_responses q [] m in
  snd r = Ok q
  /\ outbox (fst r) = outbox m
  /\ ss (fst r) = match last q with
                  | Some it => set_last_device_response (Some it) (ss m)
                  | None => ss m
                  end.
Proof.
  intros r. subst r.
  destruct (process_device_responses_acc q [] m) as (Hr & Ho & _ & Hs).
  auto.
Qed.

(** ** What one queue item does *)

Lemma inference_step_returns (rt : runtime) (suhu lembab aqi : json) (m : machine) :
  snd (inference_step rt suhu lembab aqi m) = Ok tt.
Proof.
  destruct (ml_model rt) as [model|] eqn:Hmodel.
  - apply (inference_step_cases rt model suhu lembab aqi m Hmodel).
  - unfold inference_step. rewrite Hmodel. reflexivity.
Qed.

(** The inference step changes nothing but the stored prediction and the
    outbox: every other field of the session and the flag [data_received]
    are as before, and the outbox has grown by at most one message, on the
    command topic.  Without a model it changes nothing at all. *)
Theorem inference_step_frame (rt : runtime) (suhu lembab aqi : json) (m : machine) :
  let m1 := fst (inference_step rt suhu lembab aqi m) in
  (sensor_data (ss m1) = sensor_data (ss m)
   /\ data_history (ss m1) = data_history (ss m)
   /\ last_update (ss m1) = last_update (ss m)
   /\ alerts (ss m1) = alerts (ss m)
   /\ mqtt_connected (ss m1) = mqtt_connected (ss m)
   /\ last_device_response (ss m1) = last_device_response (ss m)
   /\ data_received m1 = data_received m)
  /\ (exists sent, outbox m1 = outbox m ++ sent
        /\ (sent = []
            \/ exists payload, sent = [{| topic := TOPIC_COMMAND; body := payload |}]))
  /\ (ml_model rt = None -> m1 = m).
Proof.
  intros m1. subst m1. unfold inference_step.
  destruct (ml_model rt) as [model|].
  - unfold try_except, bind, lift.
    destruct (classify rt model suhu lembab aqi) as [[label conf]|e]; simpl.
    + unfold send_ml_prediction_to_esp32, try_except, bind, lift, publish,
        raise, emit, ret.
      destruct (confidence_int conf) as [c|e0]; simpl;
        [destruct (publish_error rt _); simpl|];
        destruct (TerminalLogger.ml_prediction suhu lembab aqi) as [[]|e'];
        simpl; (split; [repeat split|]); (split; [|discriminate]);
        solve [ exists []; rewrite app_nil_r; auto
              | eexists [_]; split; [reflexivity|right; eauto] ].
    + split; [repeat split|]. split; [|discriminate].
      exists []. rewrite app_nil_r. auto.
  - simpl. split; [repeat split|]. split; [|reflexivity].
    exists []. rewrite app_nil_r. auto.
Qed.

Lemma process_item_unfold (rt : runtime) (now : Z) (it : item) (m : machine) :
  process_item rt now it m =
    let s2 := set_last_update (At (ts it)) (set_sensor_data (payload it) (ss m)) in
    match extract_sensor_values (payload it) with
    | Raise e =>
        ({| ss := s2; outbox := outbox m; data_received := data_received m |},
         Raise e)
    | Ok (suhu, lembab, adc_raw, local_aqi, _) =>
        process_item_tail rt (payload it) suhu lembab adc_raw local_aqi
          {| ss := append_history now suhu lembab local_aqi s2;
             outbox := outbox m; data_received := data_received m |}
    end.
Proof.
  unfold process_item, process_item_tail.
  unfold bind at 1. unfold modify_session at 1.
  unfold bind at 1. unfold modify_session at 1.
  unfold bind at 1. unfold lift at 1. cbn [ss outbox data_received].
  destruct (extract_sensor_values (payload it))
    as [[[[[suhu lembab] adc_raw] local_aqi] aqi_category]|e]; reflexivity.
Qed.

Lemma process_item_tail_cases (rt : runtime)
    (data suhu lembab adc_raw local_aqi : json) (m : machine) :
  process_item_tail rt data suhu lembab adc_raw local_aqi m =
    match log_line data suhu lembab adc_raw local_aqi with
    | Raise e => (m, Raise e)
    | Ok _ =>
        let m1 := fst (inference_step rt suhu lembab local_aqi m) in
        match alerts_of data with
        | Raise e => (m1, Raise e)
        | Ok al =>
            ({| ss := set_mqtt_connected true (set_alerts al (ss m1));
                outbox := outbox m1; data_received := true |}, Ok tt)
        end
    end.
Proof.
  unfold process_item_tail, log_line.
  unfold bind at 1. unfold lift at 1.
  destruct (py_get data "rssi" JNull) as [rssi|e]; [|reflexivity].
  cbn [rbind]. unfold bind at 1. unfold lift at 1.
  destruct (TerminalLogger.sensor_data suhu lembab local_aqi rssi adc_raw)
    as [[]|e]; [|reflexivity].
  unfold bind at 1.
  pose proof (inference_step_returns rt suhu lembab local_aqi m) as Hret.
  destruct (inference_step rt suhu lembab local_aqi m) as [m1 r].
  simpl in Hret. subst r. cbn [fst].
  unfold check_alerts, bind, lift, modify_session, set_data_received.
  destruct (alerts_of data) as [al|e]; reflexivity.
Qed.

(** What one turn of the loop leaves behind. *)
Lemma drain_step_effect (rt : runtime) (now : Z) (it : item) (m : machine) :
  let m' := drain_step rt now it m in
  sensor_data (ss m') = payload it
  /\ last_update (ss m') = At (ts it)
  /\ data_history (ss m')
     = match extract_sensor_values (payload it) with
       | Ok (suhu, lembab, _, local_aqi, _) =>
           push_history (data_history (ss m)) (now, suhu, lembab, local_aqi)
       | Raise _ => data_history (ss m)
       end
  /\ data_received m' = data_received m || accepts it
  /\ mqtt_connected (ss m') = mqtt_connected (ss m) || accepts it
  /\ alerts (ss m')
     = (if accepts it
        then match alerts_of (payload it) with Ok al => al | Raise _ => [] end
        else alerts (ss m))
  /\ last_device_response (ss m') = last_device_response (ss m)
  /\ (ml_model rt = None ->
      outbox m' = outbox m /\ ml_prediction (ss m') = ml_prediction (ss m)).
Proof.
  intros m'. subst m'. unfold drain_step, try_except.
  rewrite process_item_unfold. unfold accepts. cbn zeta.
  destruct (extract_sensor_values (payload it))
    as [[[[[suhu lembab] adc_raw] local_aqi] aqi_category]|e].
  2:{ simpl. rewrite !orb_false_r. repeat split; reflexivity. }
  rewrite process_item_tail_cases.
  destruct (log_line (payload it) suhu lembab adc_raw local_aqi) as [[]|e].
  2:{ simpl. rewrite !orb_false_r. repeat split; reflexivity. }
  set (m0 := {| ss := append_history now suhu lembab local_aqi
                        (set_last_update (At (ts it))
                           (set_sensor_data (payload it) (ss m)));
                outbox := outbox m; data_received := data_received m |}).
  destruct (inference_step_frame rt suhu lembab local_aqi m0)
    as ((Hsd & Hh & Hlu & Hal & Hc & Hr & Hdr) & _ & Hnone).
  cbn zeta in *.
  destruct (alerts_of (payload it)) as [al|e]; simpl.
  - rewrite Hsd, Hh, Hlu, Hr. simpl. rewrite !orb_true_r.
    repeat split; try reflexivity; rewrite Hnone by assumption; reflexivity.
  - rewrite Hsd, Hh, Hlu, Hal, Hc, Hr, Hdr. simpl. rewrite !orb_false_r.
    repeat split; try reflexivity; rewrite Hnone by assumption; reflexivity.
Qed.

Lemma drain_cons (rt : runtime) (now : Z) (it : item) (q : list (Z * item))
    (m : machine) :
  drain rt ((now, it) :: q) m = drain rt q (drain_step rt now it m).
Proof.
  cbn [drain]. unfold drain_step, bind, try_except.
  destruct (process_item rt now it m) as [m' [[]|e]]; reflexivity.
Qed.

Lemma drain_returns (rt : runtime) (q : list (Z * item)) (m : machine) :
  snd (drain rt q m) = Ok tt.
Proof.
  revert m. induction q as [|[now it] q IH]; intros m; [reflexivity|].
  rewrite drain_cons. apply IH.
Qed.

Lemma check_staleness_frame (now : Z) (m : machine) :
  snd (check_staleness now m) = Ok tt
  /\ outbox (fst (check_staleness now m)) = outbox m
  /\ data_received (fst (check_staleness now m)) = data_received m
  /\ (fst (check_staleness now m) = m
      \/ exists b, ss (fst (check_staleness now m)) = set_mqtt_connected b (ss m)).
Proof.
  unfold check_staleness. destruct (last_update (ss m)); [auto|].
  destruct (30 * US_PER_SECOND <? _);
    [simpl; repeat split; right; eexists; reflexivity|].
  destruct (data_received m) eqn:Hdr; simpl; rewrite ?Hdr;
    repeat split; auto; right; eexists; reflexivity.
Qed.

Lemma process_incoming_data_unfold (rt : runtime) (q : list (Z * item))
    (now : Z) (m : machine) :
  process_incoming_data rt q now m =
    let m0 := {| ss := ss m; outbox := outbox m; data_received := false |} in
    let m2 := fst (check_staleness now (fst (drain rt q m0))) in
    (m2, Ok (data_received m2)).
Proof.
  unfold process_incoming_data. unfold bind at 1. unfold set_data_received at 1.
  unfold bind at 1. cbn zeta.
  pose proof (drain_returns rt q
    {| ss := ss m; outbox := outbox m; data_received := false |}) as Hd.
  destruct (drain rt q _) as [m1 r]. simpl in Hd. subst r.
  unfold bind. cbn [fst]. pose proof (check_staleness_frame now m1) as [Hs _].
  destruct (check_staleness now m1) as [m2 r]. simpl in Hs. subst r.
  reflexivity.
Qed.

(** ** What one refresh does *)

Lemma drain_reading (rt : runtime) (q : list (Z * item)) (m : machine) :
  match last q with
  | Some x =>
      sensor_data (ss (fst (drain rt q m))) = payload (snd x)
      /\ last_update (ss (fst (drain rt q m))) = At (ts (snd x))
  | None => fst (drain rt q m) = m
  end.
Proof.
  revert m. induction q as [|[now it] q IH]; intros m; [reflexivity|].
  rewrite drain_cons. specialize (IH (drain_step rt now it m)).
  destruct q as [|y q].
  - clear IH. simpl.
    destruct (drain_step_effect rt now it m) as (Hsd & Hlu & _). auto.
  - rewrite last_cons_cons.
    destruct (last (y :: q)) eqn:Hl; [exact IH|].
    apply last_None in Hl. discriminate.
Qed.

Lemma drain_history (rt : runtime) (q : list (Z * item)) (m : machine) :
  data_history (ss (fst (drain rt q m)))
  = fold_left push_history (extracted q) (data_history (ss m)).
Proof.
  revert m. induction q as [|[now it] q IH]; intros m; [reflexivity|].
  rewrite drain_cons, IH.
  destruct (drain_step_effect rt now it m) as (_ & _ & Hh & _).
  cbn zeta in Hh. rewrite Hh.
  unfold extracted. cbn [flat_map fst snd]. rewrite fold_left_app.
  destruct (extract_sensor_values (payload it))
    as [[[[[suhu lembab] adc_raw] local_aqi] aqi_category]|e]; reflexivity.
Qed.

Lemma drain_received (rt : runtime) (q : list (Z * item)) (m : machine) :
  data_received (fst (drain rt q m))
  = data_received m || existsb (fun x => accepts (snd x)) q.
Proof.
  revert m. induction q as [|[now it] q IH]; intros m;
    [simpl; rewrite orb_false_r; reflexivity|].
  rewrite drain_cons, IH.
  destruct (drain_step_effect rt now it m) as (_ & _ & _ & Hdr & _).
  cbn zeta in Hdr. rewrite Hdr. simpl. rewrite orb_assoc. reflexivity.
Qed.

Lemma drain_alerts_bound (rt : runtime) (q : list (Z * item)) (m : machine) :
  (length (alerts (ss m)) <= 4)%nat ->
  (length (alerts (ss (fst (drain rt q m)))) <= 4)%nat.
Proof.
  revert m. induction q as [|[now it] q IH]; intros m Hm; [exact Hm|].
  rewrite drain_cons. apply IH.
  destruct (drain_step_effect rt now it m) as (_ & _ & _ & _ & _ & Hal & _).
  cbn zeta in Hal. rewrite Hal.
  destruct (accepts it); [|exact Hm].
  destruct (alerts_of (payload it)) as [al|e] eqn:Hal';
    [apply (alerts_of_at_most_four _ _ Hal') | simpl; lia].
Qed.

Lemma drain_no_model (rt : runtime) (q : list (Z * item)) (m : machine) :
  ml_model rt = None ->
  outbox (fst (drain rt q m)) = outbox m
  /\ ml_prediction (ss (fst (drain rt q m))) = ml_prediction (ss m).
Proof.
  intros Hnone. revert m. induction q as [|[now it] q IH]; intros m; [auto|].
  rewrite drain_cons. destruct (IH (drain_step rt now it m)) as [Ho Hp].
  destruct (drain_step_effect rt now it m) as (_ & _ & _ & _ & _ & _ & _ & Hn).
  destruct (Hn Hnone) as [Ho' Hp']. split; congruence.
Qed.

(** After a refresh that found messages, the current reading is the
    payload of the last message drained and the stamp is its stamp,
    whether or not that message was accepted and whatever the model; so a
    payload the extraction rejects makes the extraction raise again when
    the page reads the current reading back (line 3107).  After a refresh
    that found none, reading and stamp are as before. *)
Theorem current_reading_is_last_drained (rt : runtime) (q : list (Z * item))
    (now : Z) (m : machine) :
  let s' := ss (fst (process_incoming_data rt q now m)) in
  match last q with
  | Some x =>
      sensor_data s' = payload (snd x)
      /\ last_update s' = At (ts (snd x))
      /\ (forall e, extract_sensor_values (payload (snd x)) = Raise e ->
                    extract_sensor_values (sensor_data s') = Raise e)
  | None =>
      sensor_data s' = sensor_data (ss m) /\ last_update s' = last_update (ss m)
  end.
Proof.
  intros s'. subst s'. rewrite process_incoming_data_unfold. cbn zeta. cbn [fst].
  set (m0 := {| ss := ss m; outbox := outbox m; data_received := false |}).
  pose proof (drain_reading rt q m0) as Hd.
  destruct (check_staleness_frame now (fst (drain rt q m0)))
    as (_ & _ & _ & Hfr).
  assert (Hsame :
    sensor_data (ss (fst (check_staleness now (fst (drain rt q m0)))))
      = sensor_data (ss (fst (drain rt q m0)))
    /\ last_update (ss (fst (check_staleness now (fst (drain rt q m0)))))
      = last_update (ss (fst (drain rt q m0)))).
  { destruct Hfr as [->|[b ->]]; auto. }
  destruct Hsame as [-> ->].
  destruct (last q) as [x|].
  - destruct Hd as [Hsd Hlu]. rewrite Hsd, Hlu. auto.
  - rewrite Hd. auto.
Qed.

Lemma deque_append_bound {A : Type} (n : nat) (x : A) (d : list A) :
  (0 < n)%nat -> (length d <= n)%nat -> (length (deque_append n x d) <= n)%nat.
Proof.
  intros Hn Hd. rewrite deque_append_length by exact Hn.
  destruct (length d <? n)%nat eqn:Hlt; [apply Nat.ltb_lt in Hlt|]; lia.
Qed.

Lemma deque_fold_last_entries {A : Type} (n : nat) (xs d : list A) :
  (0 < n)%nat -> (length d <= n)%nat ->
  fold_left (fun d x => deque_append n x d) xs d = last_entries n (d ++ xs).
Proof.
  intros Hn. revert d. induction xs as [|x xs IH]; intros d Hd.
  - simpl. unfold last_entries. rewrite app_nil_r.
    replace (length d - n)%nat with 0%nat by lia. reflexivity.
  - cbn [fold_left]. rewrite IH by (apply deque_append_bound; assumption).
    unfold deque_append. destruct (length d <? n)%nat eqn:Hlt.
    + rewrite <- app_assoc. reflexivity.
    + apply Nat.ltb_ge in Hlt. destruct d as [|y d]; [simpl in *; lia|].
      cbn [tail]. rewrite <- app_assoc. cbn [app].
      unfold last_entries. cbn [length]. rewrite !length_app. cbn [length].
      simpl in Hd, Hlt.
      replace (S (length d + S (length xs)) - n)%nat
        with (S (length d + S (length xs) - n))%nat by lia.
      reflexivity.
Qed.

Lemma push_history_series (rs : list (Z * json * json * json)) (h : history) :
  h_time (fold_left push_history rs h)
    = fold_left (fun d x => deque_append 100 x d)
        (map (fun r => fst (fst (fst r))) rs) (h_time h)
  /\ h_suhu (fold_left push_history rs h)
    = fold_left (fun d x => deque_append 100 x d)
        (map (fun r => snd (fst (fst r))) rs) (h_suhu h)
  /\ h_lembab (fold_left push_history rs h)
    = fold_left (fun d x => deque_append 100 x d)
        (map (fun r => snd (fst r)) rs) (h_lembab h)
  /\ h_aqi (fold_left push_history rs h)
    = fold_left (fun d x => deque_append 100 x d)
        (map (fun r => snd r) rs) (h_aqi h).
Proof.
  revert h. induction rs as [|[[[now suhu] lembab] aqi] rs IH]; intros h;
    [auto|].
  cbn [fold_left map]. destruct (IH (push_history h (now, suhu, lembab, aqi)))
    as (H1 & H2 & H3 & H4).
  rewrite H1, H2, H3, H4. auto.
Qed.

(** The history is a sliding window: after a refresh, each series holds
    the last 100 entries of what it held before followed by what the
    drained messages contribute, in arrival order, a message contributing
    exactly when its extraction returns (log, model and alert failures do
    not matter). *)
Theorem history_holds_last_100 (rt : runtime) (q : list (Z * item))
    (now : Z) (m : machine) :
  history_ok (data_history (ss m)) ->
  let h := data_history (ss m) in
  let h' := data_history (ss (fst (process_incoming_data rt q now m))) in
  h_time h'
    = last_entries 100 (h_time h ++ map (fun r => fst (fst (fst r))) (extracted q))
  /\ h_suhu h'
    = last_entries 100 (h_suhu h ++ map (fun r => snd (fst (fst r))) (extracted q))
  /\ h_lembab h'
    = last_entries 100 (h_lembab h ++ map (fun r => snd (fst r)) (extracted q))
  /\ h_aqi h'
    = last_entries 100 (h_aqi h ++ map (fun r => snd r) (extracted q)).
Proof.
  intros (Ht & Hs & Hl & Ha) h h'. subst h h'.
  rewrite process_incoming_data_unfold. cbn zeta. cbn [fst].
  set (m0 := {| ss := ss m; outbox := outbox m; data_received := false |}).
  destruct (check_staleness_frame now (fst (drain rt q m0)))
    as (_ & _ & _ & Hfr).
  assert (Hsame :
    data_history (ss (fst (check_staleness now (fst (drain rt q m0)))))
      = data_history (ss (fst (drain rt q m0)))).
  { destruct Hfr as [->|[b ->]]; auto. }
  rewrite Hsame, drain_history. cbn [m0 ss].
  destruct (push_history_series (extracted q) (data_history (ss m)))
    as (H1 & H2 & H3 & H4).
  rewrite H1, H2, H3, H4.
  rewrite !deque_fold_last_entries by lia. auto.
Qed.

Lemma history_holds_last_100_witness :
  h_suhu (data_history (ss (fst (process_incoming_data rt_no_model
    (sensor_queue (tick_of_items 101)) 0 initial_machine))))
  = map (fun i => JInt (Z.of_nat i)) (seq 1 100).
Proof.
  assert (Hok : history_ok (data_history (ss initial_machine)))
    by (unfold history_ok; simpl; repeat split; lia).
  destruct (history_holds_last_100 rt_no_model
              (sensor_queue (tick_of_items 101)) 0 initial_machine Hok)
    as (_ & Hsuhu & _).
  rewrite Hsuhu. vm_compute. reflexivity.
Defined.

(** [process_incoming_data] never raises, and it returns [True] exactly
    when at least one drained message was accepted, that is when its
    extraction, its log line and its alert evaluation all returned: the
    model, its failures and the publisher have no say. *)
Theorem data_received_iff_accepted (rt : runtime) (q : list (Z * item))
    (now : Z) (m : machine) :
  snd (process_incoming_data rt q now m)
  = Ok (existsb (fun x => accepts (snd x)) q).
Proof.
  rewrite process_incoming_data_unfold. cbn zeta. cbn [snd].
  set (m0 := {| ss := ss m; outbox := outbox m; data_received := false |}).
  destruct (check_staleness_frame now (fst (drain rt q m0)))
    as (_ & _ & Hdr & _).
  rewrite Hdr, drain_received. reflexivity.
Qed.

Lemma run_tick_effect (rt : runtime) (tk : tick) (m : machine) :
  let m1 := fst (process_incoming_data rt (sensor_queue tk) (check_time tk) m) in
  outbox (run_tick rt tk m) = outbox m1
  /\ alerts (ss (run_tick rt tk m)) = alerts (ss m1)
  /\ ml_prediction (ss (run_tick rt tk m)) = ml_prediction (ss m1).
Proof.
  intros m1. subst m1. unfold run_tick.
  destruct (process_device_responses_acc (response_queue tk) []
              (fst (process_incoming_data rt (sensor_queue tk) (check_time tk) m)))
    as (_ & Ho & _ & Hs).
  rewrite Ho, Hs. destruct (last (response_queue tk)); auto.
Qed.

Lemma process_incoming_data_effect (rt : runtime) (q : list (Z * item))
    (now : Z) (m : machine) :
  let m0 := {| ss := ss m; outbox := outbox m; data_received := false |} in
  let m2 := fst (process_incoming_data rt q now m) in
  outbox m2 = outbox (fst (drain rt q m0))
  /\ alerts (ss m2) = alerts (ss (fst (drain rt q m0)))
  /\ ml_prediction (ss m2) = ml_prediction (ss (fst (drain rt q m0))).
Proof.
  intros m0 m2. subst m2. rewrite process_incoming_data_unfold.
  cbn zeta. cbn [fst]. fold m0.
  destruct (check_staleness_frame now (fst (drain rt q m0)))
    as (_ & Ho & _ & Hfr).
  rewrite Ho. destruct Hfr as [->|[b ->]]; auto.
Qed.

(** Alerts do not pile up: after any number of refreshes the session
    holds at most four alerts. *)
Theorem alerts_never_exceed_four (rt : runtime) (tks : list tick) :
  (length (alerts (ss (run_ticks rt tks initial_machine))) <= 4)%nat.
Proof.
  assert (H0 : (length (alerts (ss initial_machine)) <= 4)%nat) by (simpl; lia).
  revert H0. generalize initial_machine.
  induction tks as [|tk tks IH]; intros m Hm; [exact Hm|].
  cbn [run_ticks fold_left]. apply IH.
  destruct (run_tick_effect rt tk m) as (_ & -> & _).
  destruct (process_incoming_data_effect rt (sensor_queue tk) (check_time tk) m)
    as (_ & -> & _).
  apply drain_alerts_bound. exact Hm.
Qed.

(** The model is optional: with no model loaded, whatever the queues hold
    and however many refreshes run, nothing is ever handed to the
    publisher and the stored prediction stays the initial
    [{'status': 'N/A', 'confidence': None}]. *)
Theorem no_model_publishes_nothing (rt : runtime) (tks : list tick) :
  ml_model rt = None ->
  outbox (run_ticks rt tks initial_machine) = []
  /\ ml_prediction (ss (run_ticks rt tks initial_machine))
     = {| status := "N/A"; confidence := None |}.
Proof.
  intros Hnone.
  assert (H0 : outbox initial_machine = []
               /\ ml_prediction (ss initial_machine)
                  = {| status := "N/A"; confidence := None |}) by auto.
  revert H0. generalize initial_machine.
  induction tks as [|tk tks IH]; intros m Hm; [exact Hm|].
  cbn [run_ticks fold_left]. apply IH.
  destruct (run_tick_effect rt tk m) as (-> & _ & ->).
  destruct (process_incoming_data_effect rt (sensor_queue tk) (check_time tk) m)
    as (-> & _ & ->).
  destruct (drain_no_model rt (sensor_queue tk)
              {| ss := ss m; outbox := outbox m; data_received := false |} Hnone)
    as [-> ->].
  exact Hm.
Qed.

Lemma no_model_publishes_nothing_witness :
  outbox (run_ticks rt_no_model
            [tick_with_reading (instant 0 12 0 1)] initial_machine) = []
  /\ ml_prediction (ss (run_ticks rt_no_model
            [tick_with_reading (instant 0 12 0 1)] initial_machine))
     = {| status := "N/A"; confidence := None |}.
Proof.
  exact (no_model_publishes_nothing rt_no_model
           [tick_with_reading (instant 0 12 0 1)] eq_refl).
Defined.

(** ** Which payloads go through *)

(** [extract_sensor_values] returns exactly on the objects whose
    [environment], when present, is itself an object; on anything else it
    raises [AttributeError]. *)
Theorem extract_returns_on_objects (data : json) :
  match data with
  | JDict m =>
      match m !! "environment" with
      | None | Some (JDict _) => exists r, extract_sensor_values data = Ok r
      | Some _ => extract_sensor_values data = Raise AttributeError
      end
  | _ => extract_sensor_values data = Raise AttributeError
  end.
Proof.
  destruct data as [| | | | | |m]; try reflexivity.
  unfold extract_sensor_values, py_get, py_in. cbn [rbind].
  destruct (m !! "environment") as [[| | | | | |e]|]; cbn [rbind];
    try reflexivity; eauto.
Qed.

Lemma is_numeric_format_aligned (v : json) :
  is_numeric v = true -> format_aligned v = Ok tt.
Proof. destruct v; simpl; intros H; try reflexivity; discriminate. Qed.

Lemma is_numeric_py_le (v : json) (c : Z) :
  is_numeric v = true -> exists b, py_le v c = Ok b.
Proof.
  unfold is_numeric, py_le. destruct (as_number v) as [[q|n|]|]; intros H;
    eauto; discriminate.
Qed.

Lemma numeric_temp_category (v : json) :
  is_numeric v = true -> exists r, TerminalLogger._get_temp_category v = Ok r.
Proof.
  intros H. unfold TerminalLogger._get_temp_category.
  rewrite !(py_lt_numeric v) by exact H. cbn [rbind].
  destruct (lt v 20), (lt v 28), (lt v 35); eauto.
Qed.

Lemma numeric_humid_category (v : json) :
  is_numeric v = true -> exists r, TerminalLogger._get_humid_category v = Ok r.
Proof.
  intros H. unfold TerminalLogger._get_humid_category.
  rewrite !(py_lt_numeric v) by exact H. cbn [rbind].
  destruct (lt v 40), (lt v 70); eauto.
Qed.

Lemma numeric_aqi_category (v : json) :
  is_numeric v = true -> exists r, TerminalLogger._get_aqi_category v = Ok r.
Proof.
  intros H. unfold TerminalLogger._get_aqi_category, py_le.
  unfold is_numeric in H. destruct (as_number v) as [[q|n|]|]; [| | |discriminate];
    cbn [rbind].
  - destruct (q ?= inject_Z 50)%Q, (q ?= inject_Z 100)%Q,
      (q ?= inject_Z 150)%Q, (q ?= inject_Z 200)%Q; eauto.
  - destruct n; eauto.
  - eauto.
Qed.

Lemma numeric_rssi_category (v : json) :
  is_numeric v = true -> exists r, TerminalLogger._get_rssi_category v = Ok r.
Proof.
  intros H. unfold TerminalLogger._get_rssi_category.
  rewrite !(py_gt_numeric v) by exact H. cbn [rbind].
  destruct (gt v (-50)), (gt v (-60)), (gt v (-70)); eauto.
Qed.

(** A well-typed flat payload is always accepted: it is appended to the
    history, counted as received and marks the connection as alive, and
    its alerts, the four rule groups of its own fields, replace the
    previous alert list, whatever the model and the publisher do. *)
Theorem well_typed_reading_is_accepted (rt : runtime) (now stamp : Z)
    (fields : gmap string json) (m : machine) :
  well_typed_flat fields = true ->
  let it := {| ts := stamp; payload := JDict fields |} in
  let m' := drain_step rt now it m in
  accepts it = true
  /\ data_received m' = true
  /\ mqtt_connected (ss m') = true
  /\ alerts (ss m')
     = local_aqi_alerts (field fields "local_aqi" (JInt 0))
       ++ weather_alerts (field fields "weather_aqi" (JInt 0))
       ++ suhu_alerts (field fields "suhu" (JInt 0))
       ++ lembab_alerts (field fields "lembab" (JInt 0))
  /\ data_history (ss m')
     = push_history (data_history (ss m))
         (now, field fields "suhu" (JInt 0), field fields "lembab" (JInt 0),
          field fields "local_aqi" (JInt 0)).
Proof.
  intros H it m'. unfold well_typed_flat in H.
  apply andb_prop in H as [H Hw]. apply andb_prop in H as [H Hadc].
  apply andb_prop in H as [H Hrssi]. apply andb_prop in H as [H Ha].
  apply andb_prop in H as [H Hl]. apply andb_prop in H as [He Hs].
  assert (Henv : fields !! "environment" = None).
  { unfold py_in in He. destruct (fields !! "environment"); [discriminate|reflexivity]. }
  assert (Hok : alert_fields_ok fields = true).
  { unfold alert_fields_ok. rewrite Ha, Hw, Hs, Hl. reflexivity. }
  assert (Hex : extract_sensor_values (JDict fields)
                = Ok (field fields "suhu" (JInt 0), field fields "lembab" (JInt 0),
                      field fields "adc_raw" (JInt 0),
                      field fields "local_aqi" (JInt 0),
                      field fields "aqi_category" (JStr "N/A")))
    by (exact (extract_flat fields Henv)).
  assert (Hlog : log_line (JDict fields) (field fields "suhu" (JInt 0))
                   (field fields "lembab" (JInt 0))
                   (field fields "adc_raw" (JInt 0))
                   (field fields "local_aqi" (JInt 0)) = Ok tt).
  { unfold log_line, py_get. cbn [rbind]. fold (field fields "rssi" JNull).
    unfold TerminalLogger.sensor_data.
    destruct (numeric_temp_category _ (formats_fixed_numeric _ Hs)) as [r1 ->].
    destruct (numeric_humid_category _ (formats_fixed_numeric _ Hl)) as [r2 ->].
    destruct (numeric_aqi_category _ Ha) as [r3 ->].
    cbn [rbind]. rewrite (formats_fixed_ok _ Hs), (formats_fixed_ok _ Hl).
    cbn [rbind]. rewrite (is_numeric_format_aligned _ Ha). cbn [rbind].
    assert (Hadc' : (if is_none (field fields "adc_raw" (JInt 0)) then Ok tt
                     else format_aligned (field fields "adc_raw" (JInt 0)))
                    = Ok tt).
    { destruct (is_none (field fields "adc_raw" (JInt 0))); [reflexivity|].
      simpl in Hadc.
      destruct (format_aligned (field fields "adc_raw" (JInt 0))) as [[]|];
        [reflexivity|discriminate]. }
    rewrite Hadc'. cbn [rbind].
    destruct (is_none (field fields "rssi" JNull)); [reflexivity|].
    simpl in Hrssi.
    destruct (numeric_rssi_category _ Hrssi) as [r4 ->]. cbn [rbind].
    rewrite (is_numeric_format_aligned _ Hrssi). reflexivity. }
  assert (Hacc : accepts it = true).
  { unfold accepts, it. cbn [payload]. rewrite Hex, Hlog.
    rewrite (alerts_of_groups fields Hok). reflexivity. }
  destruct (drain_step_effect rt now it m)
    as (_ & _ & Hh & Hdr & Hc & Hal & _).
  cbn zeta in *. fold m' in Hh, Hdr, Hc, Hal.
  rewrite Hacc in Hdr, Hc, Hal. rewrite orb_true_r in Hdr, Hc.
  unfold it in Hh, Hal. cbn [payload] in Hh, Hal.
  rewrite Hex in Hh. rewrite (alerts_of_groups fields Hok) in Hal.
  auto.
Qed.

Lemma well_typed_reading_is_accepted_witness :
  accepts {| ts := 43200; payload := JDict example_reading_fields |} = true
  /\ alerts (ss (drain_step rt_with_model 0
       {| ts := 43200; payload := JDict example_reading_fields |}
       initial_machine)) = [].
Proof.
  assert (Hwt : well_typed_flat example_reading_fields = true)
    by (vm_compute; reflexivity).
  destruct (well_typed_reading_is_accepted rt_with_model 0 43200
              example_reading_fields initial_machine Hwt)
    as (Hacc & _ & _ & Hal & _).
  split; [exact Hacc|]. rewrite Hal. vm_compute. reflexivity.
Defined.

(** ** The air quality shown, logged and alerted *)

Lemma numeric_views (v : json) :
  is_numeric v = true ->
  exists f, as_number v = Some f.
Proof.
  unfold is_numeric. destruct (as_number v); [eauto|discriminate].
Qed.

(** What each of the four graders of the local AQI answers in each band,
    for every numeric value.  The alert and the AQI card have three
    levels and agree on them, except for NaN, on which no alert fires
    while the card shows danger.  The log has five categories.  The gauge
    has four fixed colours of its own, and in the dark theme its colour
    is the card's colour only up to 50 and above 200: from 51 to 100 the
    gauge shows the theme's warning colour while the card shows success,
    and from 101 to 200 it shows the secondary accent colour while the
    card shows warning.  In the light theme the two never match. *)
Theorem aqi_grading_table (v : json) :
  is_numeric v = true ->
  local_aqi_alerts v
  = match aqi_level_of v with
    | Hazardous => [("danger", AQI_BERBAHAYA v)]
    | Unhealthy | Sensitive => [("warning", AQI_Tidak_Sehat v)]
    | Moderate | Good | NotANumber => []
    end
  /\ TerminalLogger._get_aqi_category v
     = Ok match aqi_level_of v with
          | Good => ("Baik", TerminalLogger.GREEN)
          | Moderate => ("Sedang", TerminalLogger.YELLOW)
          | Sensitive => ("Tidak Sehat", TerminalLogger.YELLOW)
          | Unhealthy => ("Buruk", TerminalLogger.RED)
          | Hazardous | NotANumber => ("Berbahaya", TerminalLogger.RED)
          end
  /\ aqi_card v
     = Ok match aqi_level_of v with
          | Good | Moderate => ("gas", "success")
          | Sensitive | Unhealthy => ("alert", "warning")
          | Hazardous | NotANumber => ("fire", "danger")
          end
  /\ aqi_bar_color v
     = Ok match aqi_level_of v with
          | Good => "#3fb950"
          | Moderate => "#d29922"
          | Sensitive | Unhealthy => "#f0883e"
          | Hazardous | NotANumber => "#f85149"
          end
  /\ (forall icon key bar,
        aqi_card v = Ok (icon, key) ->
        aqi_bar_color v = Ok bar ->
        THEMES Dark !! match aqi_level_of v with
                       | Moderate => "warning"
                       | Sensitive | Unhealthy => "accent_secondary"
                       | Good | Hazardous | NotANumber => key
                       end = Some bar
        /\ (THEMES Dark !! key = Some bar <->
            match aqi_level_of v with
            | Good | Hazardous | NotANumber => True
            | Moderate | Sensitive | Unhealthy => False
            end)
        /\ THEMES Light !! key <> Some bar).
Proof.
  intros Hnum. destruct (numeric_views v Hnum) as [f Hf].
  assert (Hnan : is_nan v = match f with FNaN => true | _ => false end).
  { destruct v as [| | |g| | |]; simpl in Hf; try discriminate;
      injection Hf as <-; reflexivity. }
  unfold aqi_level_of, local_aqi_alerts, gt, py_gt,
    TerminalLogger._get_aqi_category, aqi_card, aqi_bar_color, py_le.
  rewrite Hnan, Hf. clear Hnan Hf Hnum.
  assert (Hyes : forall (name : theme_name) (key bar : string),
             bool_decide (THEMES name !! key = Some bar) = true ->
             THEMES name !! key = Some bar)
    by (intros name key bar Hb; exact (bool_decide_eq_true_1 _ Hb)).
  assert (Hno : forall (name : theme_name) (key bar : string),
             bool_decide (THEMES name !! key = Some bar) = false ->
             THEMES name !! key <> Some bar)
    by (intros name key bar Hb; exact (bool_decide_eq_false_1 _ Hb)).
  destruct f as [q|neg|]; cbn [rbind].
  - destruct (Qcompare_spec q (inject_Z 200)) as [H200|H200|H200];
      destruct (Qcompare_spec q (inject_Z 150)) as [H150|H150|H150];
      destruct (Qcompare_spec q (inject_Z 100)) as [H100|H100|H100];
      destruct (Qcompare_spec q (inject_Z 50)) as [H50|H50|H50];
      cbn [rbind];
      try (exfalso; unfold inject_Z in *; lra);
      (repeat (split; [reflexivity|]));
      intros icon key bar [= <- <-] [= <-];
      (split; [apply Hyes; vm_compute; reflexivity|]);
      (split; [|apply Hno; vm_compute; reflexivity]);
      (split; [intros Heq|intros Ht];
       first [ exact I | contradiction | apply Hyes; vm_compute; reflexivity
             | exfalso; revert Heq; apply Hno; vm_compute; reflexivity ]).
  - destruct neg; cbn [rbind negb];
      (repeat (split; [reflexivity|]));
      intros icon key bar [= <- <-] [= <-];
      (split; [apply Hyes; vm_compute; reflexivity|]);
      (split; [|apply Hno; vm_compute; reflexivity]);
      (split; [intros Heq|intros Ht];
       first [ exact I | contradiction | apply Hyes; vm_compute; reflexivity
             | exfalso; revert Heq; apply Hno; vm_compute; reflexivity ]).
  - (repeat (split; [reflexivity|]));
      intros icon key bar [= <- <-] [= <-];
      (split; [apply Hyes; vm_compute; reflexivity|]);
      (split; [|apply Hno; vm_compute; reflexivity]);
      (split; [intros Heq|intros Ht];
       first [ exact I | contradiction | apply Hyes; vm_compute; reflexivity
             | exfalso; revert Heq; apply Hno; vm_compute; reflexivity ]).
Qed.

Lemma aqi_grading_table_witness :
  aqi_card (JInt 75) = Ok ("gas", "success")
  /\ aqi_bar_color (JInt 75) = Ok "#d29922"
  /\ THEMES Dark !! "warning" = Some "#d29922".
Proof.
  destruct (aqi_grading_table (JInt 75) eq_refl) as (_ & _ & Hcard & Hbar & Hth).
  split; [exact Hcard|]. split; [exact Hbar|].
  exact (proj1 (Hth "gas" "success" "#d29922" Hcard Hbar)).
Defined.

(** ** Confidence *)

Lemma confidence_int_floor (c : Q) :
  (0 <= c)%Q -> confidence_int (Some (FFin c)) = Ok (Qfloor c).
Proof.
  intros Hc. unfold confidence_int, float_truthy, float_int. destruct c as [n d].
  assert (Hn : 0 <= n).
  { unfold Qle in Hc. simpl in Hc. lia. }
  destruct (Qeq_bool (n # d) 0) eqn:Hz; cbn [negb].
  - apply Qeq_bool_iff in Hz. unfold Qeq in Hz. simpl in Hz.
    assert (n = 0) by lia. subst n. reflexivity.
  - simpl. f_equal. apply Z.quot_div_nonneg; lia.
Qed.

(** When every class probability lies between 0 and 1, the confidence
    [classify] returns is a finite double between 0 and 100, and the
    integer sent to the device in the [set_status] command is its integer
    part, between 0 and 100 as well: the conversion never raises. *)
Theorem confidence_within_bounds (rt : runtime) (model : classifier)
    (proba_of : list json -> result (list Q))
    (suhu lembab aqi : json) (label : string) (conf : option pyfloat) :
  predict_proba model = Some proba_of ->
  (forall X proba, proba_of X = Ok proba ->
     List.Forall (fun p => 0 <= p /\ p <= 1)%Q proba) ->
  classify rt model suhu lembab aqi = Ok (label, conf) ->
  exists (c : Q) (z : Z),
    conf = Some (FFin c)
    /\ (0 <= c)%Q /\ (c <= 100)%Q
    /\ confidence_int conf = Ok z
    /\ 0 <= z <= 100
    /\ (inject_Z z <= c)%Q /\ (c < inject_Z (z + 1))%Q.
Proof.
  intros Hpp Hrange Hc.
  destruct (classify_steps rt model suhu lembab aqi label conf Hc)
    as (X & raw & _ & _ & _ & Hconf).
  rewrite Hpp in Hconf. destruct Hconf as (proba & top & Hproba & [Hin _] & Heq).
  pose proof (Hrange X proba Hproba) as Hall.
  rewrite List.Forall_forall in Hall. destruct (Hall top Hin) as [H0 H1].
  destruct (float_of_probability top H0 H1) as (p & Hp & Hp0 & Hp1 & _).
  destruct (float_mul_probability p Hp0 Hp1) as (c & Hmul & Hc0 & Hc1 & _).
  exists c, (Qfloor c). rewrite Heq, Hp, Hmul.
  split; [reflexivity|]. split; [exact Hc0|]. split; [exact Hc1|].
  split; [apply confidence_int_floor; exact Hc0|].
  split.
  - split.
    + rewrite <- (Qfloor_Z 0). apply Qfloor_resp_le. exact Hc0.
    + rewrite <- (Qfloor_Z 100). apply Qfloor_resp_le. exact Hc1.
  - split; [apply Qfloor_le | apply Qlt_floor].
Qed.

Lemma confidence_within_bounds_witness :
  classify rt_with_model example_classifier_sixty
    (JFloat (FFin (57 # 2))) (JInt 60) (JInt 45)
  = Ok ("Aman", Some (FFin 60))
  /\ confidence_int (Some (FFin 60)) = Ok 60.
Proof.
  assert (Hval : classify rt_with_model example_classifier_sixty
                   (JFloat (FFin (57 # 2))) (JInt 60) (JInt 45)
                 = Ok ("Aman", Some (FFin 60))) by (vm_compute; reflexivity).
  split; [exact Hval|].
  assert (Hrange : forall (X : list json) (proba : list Q),
             (fun _ : list json => Ok [(6 # 10)%Q; (3 # 10)%Q; (1 # 10)%Q]) X
             = Ok proba ->
             List.Forall (fun p => 0 <= p /\ p <= 1)%Q proba).
  { intros X proba [= <-]. repeat constructor; unfold Qle; simpl; lia. }
  destruct (confidence_within_bounds rt_with_model example_classifier_sixty _
              (JFloat (FFin (57 # 2))) (JInt 60) (JInt 45) "Aman"
              (Some (FFin 60)) eq_refl Hrange Hval)
    as (c & z & Hc & _ & _ & Hz & _).
  injection Hc as <-. reflexivity.
Defined.

(** ** Loading the model *)

(** [load_ml_model] answers all or nothing, and reports the first load
    that raised.  Either the model file is missing: no load is tried and
    the error names the file by its base name.  Or the three loads
    succeed, each optional one being tried exactly when its file exists:
    the answer is the model, the scaler and the label encoder, with no
    error.  Or one load raises, the model's, else the scaler's, else the
    label encoder's: the answer is no model, no scaler, no label encoder,
    and the error made from the text of that very exception, the
    incompatibility message when the text mentions [incompatible dtype] or
    [node array], the failure message quoting the text otherwise. *)
Theorem load_ml_model_all_or_nothing {obj : Type} (fs : filesystem obj)
    (_model_path : option string) :
  let path := chosen_model_path _model_path in
  let optional (file : string) (artifact : option obj) :=
    if path_exists fs file then
      exists o, joblib_load fs file = Loaded o /\ artifact = Some o
    else artifact = None in
  (path_exists fs path = false
   /\ load_ml_model fs _model_path
      = (None, None, None, Some (Model_file_not_found (basename path))))
  \/ (exists model scaler label_encoder,
        path_exists fs path = true
        /\ joblib_load fs path = Loaded model
        /\ optional SCALER_PATH scaler
        /\ optional LABEL_ENCODER_PATH label_encoder
        /\ load_ml_model fs _model_path
           = (Some model, scaler, label_encoder, None))
  \/ (exists error_msg,
        path_exists fs path = true
        /\ (joblib_load fs path = LoadRaises error_msg
            \/ (exists model,
                  joblib_load fs path = Loaded model
                  /\ path_exists fs SCALER_PATH = true
                  /\ joblib_load fs SCALER_PATH = LoadRaises error_msg)
            \/ (exists model scaler,
                  joblib_load fs path = Loaded model
                  /\ optional SCALER_PATH scaler
                  /\ path_exists fs LABEL_ENCODER_PATH = true
                  /\ joblib_load fs LABEL_ENCODER_PATH = LoadRaises error_msg))
        /\ load_ml_model fs _model_path
           = (None, None, None,
              Some (if contains "incompatible dtype" error_msg
                       || contains "node array" error_msg
                    then Model_incompatible
                    else Failed_to_load_model error_msg))).
Proof.
  intros path optional. unfold load_ml_model.
  fold (chosen_model_path _model_path). fold path.
  assert (Hfail : forall e : string,
             (if contains "incompatible dtype" e || contains "node array" e
              then (None, None, None, Some Model_incompatible)
              else (None, None, None, Some (Failed_to_load_model e)))
             = (@None obj, @None obj, @None obj,
                Some (if contains "incompatible dtype" e || contains "node array" e
                      then Model_incompatible
                      else Failed_to_load_model e))).
  { intros e. destruct (contains _ e || contains _ e); reflexivity. }
  destruct (path_exists fs path) eqn:Hex; cbn [negb].
  2: { left. split; reflexivity. }
  right. unfold load_artifacts.
  destruct (joblib_load fs path) as [model|e] eqn:Hm.
  2: { right. exists e. split; [reflexivity|]. split; [left; reflexivity|].
       apply Hfail. }
  assert (Hscaler :
            (exists scaler,
                optional SCALER_PATH scaler
                /\ (if path_exists fs SCALER_PATH
                    then match joblib_load fs SCALER_PATH with
                         | Loaded scaler => Loaded (Some scaler)
                         | LoadRaises e => LoadRaises e
                         end
                    else Loaded None) = Loaded scaler)
            \/ (exists e,
                  path_exists fs SCALER_PATH = true
                  /\ joblib_load fs SCALER_PATH = LoadRaises e
                  /\ (if path_exists fs SCALER_PATH
                      then match joblib_load fs SCALER_PATH with
                           | Loaded scaler => Loaded (Some scaler)
                           | LoadRaises e => LoadRaises e
                           end
                      else Loaded None) = LoadRaises e)).
  { subst optional. cbn beta.
    destruct (path_exists fs SCALER_PATH);
      [destruct (joblib_load fs SCALER_PATH) as [o|e]|]; eauto 8. }
  assert (Hencoder :
            (exists label_encoder,
                optional LABEL_ENCODER_PATH label_encoder
                /\ (if path_exists fs LABEL_ENCODER_PATH
                    then match joblib_load fs LABEL_ENCODER_PATH with
                         | Loaded label_encoder => Loaded (Some label_encoder)
                         | LoadRaises e => LoadRaises e
                         end
                    else Loaded None) = Loaded label_encoder)
            \/ (exists e,
                  path_exists fs LABEL_ENCODER_PATH = true
                  /\ joblib_load fs LABEL_ENCODER_PATH = LoadRaises e
                  /\ (if path_exists fs LABEL_ENCODER_PATH
                      then match joblib_load fs LABEL_ENCODER_PATH with
                           | Loaded label_encoder => Loaded (Some label_encoder)
                           | LoadRaises e => LoadRaises e
                           end
                      else Loaded None) = LoadRaises e)).
  { subst optional. cbn beta.
    destruct (path_exists fs LABEL_ENCODER_PATH);
      [destruct (joblib_load fs LABEL_ENCODER_PATH) as [o|e]|]; eauto 8. }
  destruct Hscaler as [(scaler & Hs & ->)|(e & Hse & Hsl & ->)].
  2: { right. exists e. split; [reflexivity|].
       split; [right; left; exists model; auto|]. apply Hfail. }
  destruct Hencoder as [(enc & Hl & ->)|(e & Hle & Hll & ->)].
  - left. exists model, scaler, enc. auto.
  - right. exists e. split; [reflexivity|].
    split; [right; right; exists model, scaler; auto|]. apply Hfail.
Qed.

(** A scaler file that exists and does not load makes the model itself
    unavailable, although the model file loads: the exception of the
    second [joblib.load] is caught by the same handler. *)
Theorem corrupt_scaler_disables_model {obj : Type} (fs : filesystem obj)
    (_model_path : option string) (model : obj) (error_msg : string) :
  path_exists fs (chosen_model_path _model_path) = true ->
  joblib_load fs (chosen_model_path _model_path) = Loaded model ->
  path_exists fs SCALER_PATH = true ->
  joblib_load fs SCALER_PATH = LoadRaises error_msg ->
  load_ml_model fs _model_path
  = (None, None, None, Some (load_failure error_msg)).
Proof.
  intros Hex Hm Hs Hsl. unfold load_ml_model.
  fold (chosen_model_path _model_path). rewrite Hex. cbn [negb].
  unfold load_artifacts. rewrite Hm, Hs, Hsl. unfold load_failure.
  destruct (contains _ error_msg || contains _ error_msg); reflexivity.
Qed.

Lemma corrupt_scaler_disables_model_witness :
  load_ml_model fs_corrupt_scaler None
  = (None, None, None, Some (Failed_to_load_model "invalid load key")).
Proof.
  exact (corrupt_scaler_disables_model fs_corrupt_scaler None 1%nat
           "invalid load key" eq_refl eq_refl eq_refl eq_refl).
Defined.

(** ** The worker's queues and flag *)

Lemma items_on_app (keep : string -> bool) (a b : list transport_event) :
  items_on keep (a ++ b) = items_on keep a ++ items_on keep b.
Proof. unfold items_on. apply flat_map_app. Qed.

Section WorkerState.

Variables (broker : string) (port : Z) (topic_sensor topic_response : string).

Abbreviation run' := (mqtt_worker broker port topic_sensor topic_response).
Abbreviation sensor_items := (items_on (to_sensor_queue topic_sensor)).
Abbreviation response_items :=
  (items_on (to_response_queue topic_sensor topic_response)).

Lemma dispatch_queues (ev : transport_event) (w : worker) :
  let w' := fst (dispatch topic_sensor topic_response ev w) in
  in_q w' = in_q w ++ sensor_items [ev]
  /\ response_q w' = response_q w ++ response_items [ev].
Proof.
  unfold dispatch, items_on, to_sensor_queue, to_response_queue.
  destruct ev as [rc|topic decoded received|rc]; cbn.
  - unfold _on_connect. destruct (rc =? 0); cbn; rewrite !app_nil_r; auto.
  - destruct decoded as [data|e]; cbn; [|rewrite !app_nil_r; auto].
    destruct (String.eqb topic topic_sensor); cbn;
      [rewrite !app_nil_r; auto|].
    destruct (String.eqb topic topic_response); cbn; rewrite !app_nil_r; auto.
  - rewrite !app_nil_r; auto.
Qed.

Lemma loop_forever_queues (evs : list transport_event) (w : worker) :
  let w' := fst (loop_forever topic_sensor topic_response evs w) in
  in_q w' = in_q w ++ sensor_items evs
  /\ response_q w' = response_q w ++ response_items evs.
Proof.
  revert w. induction evs as [|ev rest IH]; intros w; cbn -[dispatch items_on].
  - cbn. rewrite !app_nil_r. auto.
  - pose proof (dispatch_queues ev w) as Hd. cbn zeta in Hd.
    destruct (dispatch topic_sensor topic_response ev w) as [w1 obs1].
    specialize (IH w1). cbn zeta in IH.
    destruct (loop_forever topic_sensor topic_response rest w1) as [w2 obs2].
    cbn [fst] in *. destruct Hd as [Hd1 Hd2], IH as [IH1 IH2].
    change (ev :: rest) with ([ev] ++ rest).
    rewrite !items_on_app, !app_assoc, <- Hd1, <- Hd2. auto.
Qed.

Lemma attempt_once_queues (a : attempt) (w : worker) :
  let w' := fst (attempt_once broker port topic_sensor topic_response a w) in
  in_q w' = in_q w ++ sensor_items (delivered a)
  /\ response_q w' = response_q w ++ response_items (delivered a).
Proof.
  unfold attempt_once, delivered.
  destruct (connect_result a) as [|e].
  - pose proof (loop_forever_queues (events a) w) as Hl. cbn zeta in Hl.
    destruct (loop_forever topic_sensor topic_response (events a) w)
      as [w1 obs1].
    cbn [fst] in Hl. destruct (loop_result a); cbn; exact Hl.
  - cbn. rewrite !app_nil_r. auto.
Qed.

Lemma run_queues (script : list attempt) (w : worker) :
  let w' := fst (run' script w) in
  in_q w' = in_q w ++ sensor_items (flat_map delivered script)
  /\ response_q w' = response_q w ++ response_items (flat_map delivered script).
Proof.
  revert w. induction script as [|a rest IH]; intros w;
    cbn -[attempt_once items_on].
  - cbn. rewrite !app_nil_r. auto.
  - pose proof (attempt_once_queues a w) as Ha. cbn zeta in Ha.
    destruct (attempt_once broker port topic_sensor topic_response a w)
      as [w1 obs1].
    specialize (IH w1). cbn zeta in IH.
    destruct (mqtt_worker broker port topic_sensor topic_response rest w1)
      as [w2 obs2].
    cbn [fst] in *. destruct Ha as [Ha1 Ha2], IH as [IH1 IH2].
    rewrite !items_on_app, !app_assoc, <- Ha1, <- Ha2. auto.
Qed.





Lemma attempt_once_fails (a : attempt) (w : worker) :
  fails a = true ->
  connected (fst (attempt_once broker port topic_sensor topic_response a w))
  = false.
Proof.
  unfold fails, attempt_once. destruct (connect_result a) as [|e].
  - destruct (loop_forever topic_sensor topic_response (events a) w)
      as [w1 obs1].
    destruct (loop_result a); [discriminate|reflexivity].
  - reflexivity.
Qed.


Lemma run_snoc (script : list attempt) (a : attempt) (w : worker) :
  fst (run' (script ++ [a]) w)
  = fst (attempt_once broker port topic_sensor topic_response a
           (fst (run' script w))).
Proof.
  revert w. induction script as [|b rest IH]; intros w; cbn -[attempt_once].
  - destruct (attempt_once broker port topic_sensor topic_response a w)
      as [w1 obs1]. reflexivity.
  - destruct (attempt_once broker port topic_sensor topic_response b w)
      as [w1 obs1].
    specialize (IH w1).
    destruct (mqtt_worker broker port topic_sensor topic_response
                (rest ++ [a]) w1) as [w2 obs2].
    destruct (mqtt_worker broker port topic_sensor topic_response rest w1)
      as [w3 obs3].
    cbn [fst] in *. exact IH.
Qed.

End WorkerState.

(** The worker only ever appends to the two queues, in the order of
    arrival and across reconnections: after any script, the sensor queue
    is what it was followed by the decodable messages of the sensor topic,
    and the response queue is what it was followed by the decodable
    messages of the response topic that are not on the sensor topic.
    Undecodable payloads, other topics, acknowledgements, disconnections
    and caught exceptions add nothing and remove nothing. *)
Theorem worker_queues_in_arrival_order (broker : string) (port : Z)
    (topic_sensor topic_response : string)
    (script : list attempt) (w : worker) :
  let w' := fst (mqtt_worker broker port topic_sensor topic_response script w) in
  in_q w'
  = in_q w ++ items_on (to_sensor_queue topic_sensor)
                (flat_map delivered script)
  /\ response_q w'
     = response_q w
       ++ items_on (to_response_queue topic_sensor topic_response)
            (flat_map delivered script).
Proof.
  exact (run_queues broker port topic_sensor topic_response script w).
Qed.



(** A turn that ends in the exception handler leaves the flag down,
    whatever happened before and whatever its callbacks saw. *)
Theorem failed_turn_clears_flag (broker : string) (port : Z)
    (topic_sensor topic_response : string)
    (script : list attempt) (a : attempt) (w : worker) :
  fails a = true ->
  connected (fst (mqtt_worker broker port topic_sensor topic_response
                    (script ++ [a]) w))
  = false.
Proof.
  intros Hf. rewrite run_snoc. apply attempt_once_fails. exact Hf.
Qed.

Lemma failed_turn_clears_flag_witness :
  connected
    (fst (mqtt_worker MQTT_BROKER MQTT_PORT TOPIC_DATA TOPIC_RESPONSE
            (example_script
             ++ [{| connect_result := Returns;
                    events := [ConnAck 0];
                    loop_result := Raises OSError |}])
            initial_worker))
  = false.
Proof.
  exact (failed_turn_clears_flag MQTT_BROKER MQTT_PORT TOPIC_DATA
           TOPIC_RESPONSE example_script
           {| connect_result := Returns; events := [ConnAck 0];
              loop_result := Raises OSError |}
           initial_worker eq_refl).
Defined.
